(** * Dashboard aggregation of the coaching-management backend

    A shallow embedding of [controller/dashboardController.ts]
    ([getDashboardOverview], [getQuickStats]) together with the parts of the
    JavaScript runtime and of the document store the two handlers rely on,
    and the properties of the dashboard report proved about it; then the
    email pattern, the save hook and the password check of [modal/user.ts].

    Conventions of the model.
    - A JavaScript number is an exact rational or one of the three
      non-finite values; rounding error of binary64 arithmetic and the sign of
      zero are not represented.
    - A [Date] is its time value, an integer number of milliseconds since the
      epoch; the calendar functions are those of ECMAScript (sec. 21.4.1), the
      local time zone is a fixed offset [tza] of the world.
    - The data store is a pair of document lists; each query is answered from
      them, may fail as the world's fault schedule says, and is recorded in
      the world's trace. *)

From Stdlib Require Import ZArith QArith Qround List String Ascii Bool Lia Lqa.
From Stdlib Require Import Sorted Permutation OrderedTypeEx.
Import ListNotations.

Local Open Scope string_scope.
Local Open Scope list_scope.
Local Open Scope Z_scope.

(* ===================================================================== *)
(** ** JavaScript numbers *)
(* ===================================================================== *)

Module JS.

(** A number value: finite (an exact rational), [Infinity], [-Infinity] or
    [NaN]. *)
Inductive number : Type :=
| Fin (q : Q)
| PosInf
| NegInf
| NaN.

Definition of_Z (z : Z) : number := Fin (inject_Z z).
Definition of_nat (n : nat) : number := of_Z (Z.of_nat n).

Definition is_finite (x : number) : bool :=
  match x with Fin _ => true | _ => false end.

(** Equality of number values: finite values are compared as rationals. *)
Definition numeq (x y : number) : Prop :=
  match x, y with
  | Fin a, Fin b => (a == b)%Q
  | PosInf, PosInf | NegInf, NegInf | NaN, NaN => True
  | _, _ => False
  end.

(** The sign of a number, [None] for [NaN]. *)
Definition sign (x : number) : option comparison :=
  match x with
  | Fin q => Some (q ?= 0)%Q
  | PosInf => Some Gt
  | NegInf => Some Lt
  | NaN => None
  end.

Definition of_sign (c : comparison) : number :=
  match c with Gt => PosInf | Lt => NegInf | Eq => NaN end.

Definition flip (c : comparison) : comparison := CompOpp c.

Definition sign_mul (a b : comparison) : comparison :=
  match a, b with
  | Eq, _ | _, Eq => Eq
  | Gt, c => c
  | Lt, c => flip c
  end.

(** [x - y] *)
Definition sub (x y : number) : number :=
  match x, y with
  | NaN, _ | _, NaN => NaN
  | Fin a, Fin b => Fin (a - b)
  | PosInf, PosInf | NegInf, NegInf => NaN
  | PosInf, _ => PosInf
  | NegInf, _ => NegInf
  | Fin _, PosInf => NegInf
  | Fin _, NegInf => PosInf
  end.

(** [x * y] *)
Definition mul (x y : number) : number :=
  match x, y with
  | Fin a, Fin b => Fin (a * b)
  | _, _ =>
      match sign x, sign y with
      | Some a, Some b => of_sign (sign_mul a b)
      | _, _ => NaN
      end
  end.

(** [x / y]: a zero divisor yields [NaN] or an infinity, never a finite
    value. *)
Definition div (x y : number) : number :=
  match x, y with
  | NaN, _ | _, NaN => NaN
  | Fin a, Fin b =>
      if Qeq_bool b 0 then of_sign (a ?= 0)%Q else Fin (a / b)
  | Fin _, _ => Fin 0
  | _, Fin b =>
      match sign x with
      | Some s => of_sign (sign_mul s (if Qeq_bool b 0 then Gt else (b ?= 0)%Q))
      | None => NaN
      end
  | _, _ => NaN
  end.

(** [x > y]: false as soon as an operand is [NaN]. *)
Definition gt (x y : number) : bool :=
  match x, y with
  | Fin a, Fin b => match (a ?= b)%Q with Gt => true | _ => false end
  | PosInf, Fin _ | PosInf, NegInf | Fin _, NegInf => true
  | _, _ => false
  end.

(** [Math.round(x)]: the integer nearest to [x], a tie going up. *)
Definition Math_round (x : number) : number :=
  match x with
  | Fin q => of_Z (Qfloor (q + (1 # 2)))
  | _ => x
  end.

(** [ToBoolean] on numbers: zero and [NaN] are falsy. *)
Definition truthy (x : number) : bool :=
  match x with
  | Fin q => negb (Qeq_bool q 0)
  | NaN => false
  | _ => true
  end.

(** [x || y] on numbers. *)
Definition or (x y : number) : number := if truthy x then x else y.

End JS.

Import JS.

Declare Scope js_scope.
Delimit Scope js_scope with js.
Infix "-" := JS.sub : js_scope.
Infix "*" := JS.mul : js_scope.
Infix "/" := JS.div : js_scope.
Infix ">" := JS.gt : js_scope.
Infix "||" := JS.or : js_scope.
Infix "=~" := JS.numeq (at level 70, no associativity).

(* ===================================================================== *)
(** ** Dates: ECMAScript time values *)
(* ===================================================================== *)

Module Date.

Definition msPerDay : Z := 86400000.

Definition Day (t : Z) : Z := t / msPerDay.
Definition TimeWithinDay (t : Z) : Z := t mod msPerDay.

Definition isLeapYear (y : Z) : bool :=
  (y mod 4 =? 0) && (negb (y mod 100 =? 0) || (y mod 400 =? 0)).

Definition DaysInYear (y : Z) : Z := if isLeapYear y then 366 else 365.

(** Day number of the first day of year [y]. *)
Definition DayFromYear (y : Z) : Z :=
  365 * (y - 1970) + (y - 1969) / 4 - (y - 1901) / 100 + (y - 1601) / 400.

Definition TimeFromYear (y : Z) : Z := msPerDay * DayFromYear y.

(** The year a day number falls in: the largest [y] with
    [DayFromYear y <= d] ([DateFacts.YearFromDay_spec]).  The mean length of
    a year gives an estimate that is off by at most one; the two comparisons
    settle it. *)
Definition YearFromDay (d : Z) : Z :=
  let y := 1970 + (400 * d) / 146097 in
  if DayFromYear (y + 1) <=? d then y + 1
  else if DayFromYear y <=? d then y
  else y - 1.

Definition YearFromTime (t : Z) : Z := YearFromDay (Day t).

Definition InLeapYear (t : Z) : Z :=
  if isLeapYear (YearFromTime t) then 1 else 0.

Definition DayWithinYear (t : Z) : Z := Day t - DayFromYear (YearFromTime t).

(** Day within the year on which month [m] (0 = January) starts;
    [leap] is 1 in a leap year and 0 otherwise. *)
Definition monthStart (leap m : Z) : Z :=
  match m with
  | 0 => 0
  | 1 => 31
  | 2 => 59 + leap
  | 3 => 90 + leap
  | 4 => 120 + leap
  | 5 => 151 + leap
  | 6 => 181 + leap
  | 7 => 212 + leap
  | 8 => 243 + leap
  | 9 => 273 + leap
  | 10 => 304 + leap
  | 11 => 334 + leap
  | _ => 365 + leap
  end.

(** [MonthFromTime]: 0 = January, ..., 11 = December. *)
Definition MonthFromTime (t : Z) : Z :=
  let d := DayWithinYear t in
  let leap := InLeapYear t in
  if d <? 31 then 0
  else if d <? 59 + leap then 1
  else if d <? 90 + leap then 2
  else if d <? 120 + leap then 3
  else if d <? 151 + leap then 4
  else if d <? 181 + leap then 5
  else if d <? 212 + leap then 6
  else if d <? 243 + leap then 7
  else if d <? 273 + leap then 8
  else if d <? 304 + leap then 9
  else if d <? 334 + leap then 10
  else 11.

(** [DateFromTime]: the day of the month, from 1. *)
Definition DateFromTime (t : Z) : Z :=
  DayWithinYear t - monthStart (InLeapYear t) (MonthFromTime t) + 1.

(** [MakeDay(year, month, date)]: months outside 0..11 carry into the
    year, days outside the month carry into the neighbouring months. *)
Definition MakeDay (year month date : Z) : Z :=
  let ym := year + month / 12 in
  let mn := month mod 12 in
  DayFromYear ym + monthStart (if isLeapYear ym then 1 else 0) mn + date - 1.

Definition MakeDate (day time : Z) : Z := day * msPerDay + time.

Section Zone.

(** Offset of local time from UTC, in milliseconds. *)
Variable tza : Z.

Definition LocalTime (t : Z) : Z := t + tza.
Definition UTC (t : Z) : Z := t - tza.

(** [new Date(year, month, date)], local midnight; a year in 0..99 stands
    for 1900 + year. *)
Definition new_Date (year month date : Z) : Z :=
  let yr := if (0 <=? year) && (year <=? 99) then 1900 + year else year in
  UTC (MakeDate (MakeDay yr month date) 0).

Definition getFullYear (t : Z) : Z := YearFromTime (LocalTime t).
Definition getMonth (t : Z) : Z := MonthFromTime (LocalTime t).
Definition getDate (t : Z) : Z := DateFromTime (LocalTime t).

End Zone.

End Date.

(* ===================================================================== *)
(** ** Documents *)
(* ===================================================================== *)

Module Admission.

Inductive Status : Type := active | pending | inactive | completed.

Definition Status_eqb (a b : Status) : bool :=
  match a, b with
  | active, active | pending, pending
  | inactive, inactive | completed, completed => true
  | _, _ => false
  end.

Definition Status_eq_dec (a b : Status) : {a = b} + {a <> b}.
Proof. decide equality. Defined.

(** Modelled from the spec: the admission schema ([modal/admission]) is
    not among the sources; the fields are those of the spec's data model,
    [monthlyFee] a number stored in every record, [class] and [batch]
    string keys, [admissionDate] a time value. *)
Record t : Type := mk {
  _id : nat;
  name : string;
  class : string;
  batch : string;
  admissionDate : Z;
  status : Status;
  monthlyFee : Q
}.

End Admission.

Module User.

Inductive Role : Type := student | teacher | admin.
Inductive UserType : Type := main_user | sub_user.
Inductive Provider : Type := credentials | google | facebook | github.

Definition Role_eqb (a b : Role) : bool :=
  match a, b with
  | student, student | teacher, teacher | admin, admin => true
  | _, _ => false
  end.

Definition Role_eq_dec (a b : Role) : {a = b} + {a <> b}.
Proof. decide equality. Defined.

(** A stored user document.  The first fields are those of [IUser] in
    [modal/user.ts].  The schema declares no [isActive] path, yet the
    dashboard queries filter on it: the document carries it as an optional
    field, [None] when the stored document has no such field (every document
    written through the schema) and [Some b] when it holds the boolean
    [b]. *)
Record t : Type := mk {
  name : string;
  email : string;
  password : option string;
  role : Role;
  userType : option UserType;
  provider : Provider;
  providerId : option string;
  avatar : option string;
  permissions : list string;
  isEmailVerified : bool;
  createdAt : Z;
  updatedAt : Z;
  isActive : option bool
}.

End User.

(* ===================================================================== *)
(** ** The world a handler runs in *)
(* ===================================================================== *)

(** What a failing query throws: an [Error] with its message, or any other
    value. *)
Inductive Thrown : Type :=
| ErrorObject (message : string)
| OtherValue.

Inductive Collection : Type := AdmissionCollection | UserCollection.

Record World : Type := mkWorld {
  admissions : list Admission.t;
  users : list User.t;
  (** the clock, a time value *)
  clock : Z;
  (** offset of the server's local time from UTC *)
  tza : Z;
  (** outcome of the queries still to come, in order: [Some e] makes the
      query throw [e]; past the end of the list every query succeeds *)
  faults : list (option Thrown);
  (** the queries issued so far, oldest first *)
  issued : list Collection;
  (** lines written by [console.error] *)
  console : list (string * Thrown)
}.

(** A computation that may throw, threading the world. *)
Definition M (A : Type) : Type := World -> (Thrown + A) * World.

Definition ret {A} (a : A) : M A := fun w => (inr a, w).

Definition bind {A B} (m : M A) (k : A -> M B) : M B :=
  fun w =>
    match m w with
    | (inl e, w') => (inl e, w')
    | (inr a, w') => k a w'
    end.

(** [try { body } catch (error) { handler }] *)
Definition try_catch {A} (body : M A) (handler : Thrown -> M A) : M A :=
  fun w =>
    match body w with
    | (inl e, w') => handler e w'
    | (inr a, w') => (inr a, w')
    end.

Declare Scope m_scope.
Delimit Scope m_scope with M.
Notation "x <- m ;; k" := (bind m (fun x => k))
  (at level 61, m at next level, right associativity) : m_scope.
Notation "m ;;; k" := (bind m (fun _ => k))
  (at level 61, right associativity) : m_scope.

(** The world after a query on collection [c] was sent: the query is
    recorded and the next entry of the fault schedule is consumed. *)
Definition sent (c : Collection) (w : World) : World :=
  mkWorld (admissions w) (users w) (clock w) (tza w)
          (tl (faults w)) (issued w ++ [c]) (console w).

(** One round trip to the store: the answer is computed from the documents
    unless the fault schedule makes the query throw. *)
Definition query {A} (c : Collection) (answer : World -> A) : M A :=
  fun w =>
    match faults w with
    | Some e :: _ => (inl e, sent c w)
    | _ => (inr (answer w), sent c w)
    end.

(** [new Date()] *)
Definition Date_now : M Z := fun w => (inr (clock w), w).

(** The local time zone, read by the [Date] constructor and getters. *)
Definition zone : M Z := fun w => (inr (tza w), w).

(** The world after [console.error(msg, e)]. *)
Definition logged (msg : string) (e : Thrown) (w : World) : World :=
  mkWorld (admissions w) (users w) (clock w) (tza w)
          (faults w) (issued w) (console w ++ [(msg, e)]).

Definition console_error (msg : string) (e : Thrown) : M unit :=
  fun w => (inr tt, logged msg e w).

(* ===================================================================== *)
(** ** Store operations *)
(* ===================================================================== *)

Section Stages.

Context {D : Type}.

(** [$match] *)
Definition dollar_match (p : D -> bool) (docs : list D) : list D :=
  filter p docs.

Context {K V : Type}.
Variable key : D -> K.
Variable key_eqb : K -> K -> bool.
Variable init : V.
Variable step : V -> D -> V.

(** Add a document to its group, opening a new group at the end for a key
    not seen before. *)
Fixpoint upsert (d : D) (groups : list (K * V)) : list (K * V) :=
  match groups with
  | [] => [(key d, step init d)]
  | (k, v) :: rest =>
      if key_eqb k (key d) then (k, step v d) :: rest
      else (k, v) :: upsert d rest
  end.

(** [$group]: one output per distinct key, with its accumulated value. *)
Definition dollar_group (docs : list D) : list (K * V) :=
  fold_left (fun groups d => upsert d groups) docs [].

End Stages.

Section Sort.

Context {A : Type}.
Variable leb : A -> A -> bool.

Fixpoint insert (x : A) (l : list A) : list A :=
  match l with
  | [] => [x]
  | y :: l' => if leb x y then x :: y :: l' else y :: insert x l'
  end.

(** [$sort] / [.sort()]: a stable sort. *)
Definition dollar_sort (l : list A) : list A := fold_right insert [] l.

End Sort.

(** [{ $sum: "$monthlyFee" }] *)
Definition sum_fee (docs : list Admission.t) : Q :=
  fold_left (fun acc d => (acc + Admission.monthlyFee d)%Q) docs 0%Q.

(** [Model.countDocuments(filter)] *)
Definition Admission_countDocuments (cond : Admission.t -> bool) : M nat :=
  query AdmissionCollection
    (fun w => List.length (dollar_match cond (admissions w))).

Definition User_countDocuments (cond : User.t -> bool) : M nat :=
  query UserCollection (fun w => List.length (dollar_match cond (users w))).

(** [Admission.aggregate(pipeline)], the pipeline given as the function it
    computes on the collection. *)
Definition Admission_aggregate {R} (pipeline : list Admission.t -> list R)
  : M (list R) :=
  query AdmissionCollection (fun w => pipeline (admissions w)).

(** A document as [select("name class batch admissionDate status")]
    projects it. *)
Module Recent.

Record t : Type := mk {
  _id : nat;
  name : string;
  class : string;
  batch : string;
  admissionDate : Z;
  status : Admission.Status
}.

End Recent.

Definition select_recent (a : Admission.t) : Recent.t :=
  Recent.mk (Admission._id a) (Admission.name a) (Admission.class a)
            (Admission.batch a) (Admission.admissionDate a) (Admission.status a).

(** [Admission.find().sort({ admissionDate: -1 }).limit(n).select(...)] *)
Definition Admission_find_recent (n : nat) : M (list Recent.t) :=
  query AdmissionCollection (fun w =>
    map select_recent
      (firstn n
         (dollar_sort
            (fun a b => Admission.admissionDate b <=? Admission.admissionDate a)
            (admissions w)))).

(* ===================================================================== *)
(** ** Requests, responses and the report *)
(* ===================================================================== *)

(** Modelled from the spec: [middleware/auth] is not among the sources; the
    request carries the caller identity the middleware attached, if any. *)
Record AuthUser : Type := mkAuthUser { userId : string }.
Record AuthRequest : Type := mkRequest { user : option AuthUser }.

(** [!userId] for [userId = req.user?.userId]: true when there is no user
    or the identifier is the empty string. *)
Definition no_identity (req : AuthRequest) : bool :=
  match user req with
  | None => true
  | Some u => String.eqb (userId u) ""
  end.

(** [{ _id, count }], an entry of a distribution. *)
Module Bucket.

Record t : Type := mk { _id : string; count : nat }.

End Bucket.

(** [{ _id: { year, month }, count, revenue }], an entry of the trend. *)
Module Trend.

Record YearMonth : Type := mkYearMonth { year : Z; month : Z }.

Record t : Type := mk {
  _id : YearMonth;
  count : number;
  revenue : number
}.

End Trend.

(** The [data] of the overview response. *)
Module Report.

Record Overview : Type := mkOverview {
  totalStudents : nat;
  totalTeachers : nat;
  newAdmissionsThisMonth : nat;
  pendingAdmissions : nat;
  inactiveStudents : nat;
  monthlyRevenue : number;
  avgMonthlyFee : number
}.

Record Growth : Type := mkGrowth {
  studentGrowth : number;
  admissionGrowth : number
}.

Record Distribution : Type := mkDistribution {
  byClass : list Bucket.t;
  byBatch : list Bucket.t
}.

Record t : Type := mk {
  overview : Overview;
  growth : Growth;
  distribution : Distribution;
  recentAdmissions : list Recent.t;
  monthlyTrends : list Trend.t
}.

End Report.

(** The [data] of the quick-stats response. *)
Module QuickStats.

Record t : Type := mk {
  totalActive : nat;
  totalPending : nat;
  totalTeachers : nat
}.

End QuickStats.

(** The JSON body of a response. *)
Inductive Body : Type :=
| Failure (message : string) (error : option string)
    (* { success: false, message, error? } *)
| OverviewData (data : Report.t)
    (* { success: true, data } *)
| QuickStatsData (data : QuickStats.t).

Definition success (b : Body) : bool :=
  match b with Failure _ _ => false | _ => true end.

Record Response : Type := mkResponse { status : nat; body : Body }.

(** [error instanceof Error ? error.message : "Unknown error"] *)
Definition error_text (e : Thrown) : string :=
  match e with
  | ErrorObject message => message
  | OtherValue => "Unknown error"
  end.

(* ===================================================================== *)
(** ** The dashboard controller *)
(* ===================================================================== *)

Local Open Scope m_scope.

Definition is_active (a : Admission.t) : bool :=
  Admission.Status_eqb (Admission.status a) Admission.active.

(** The date boundaries, from the clock reading [now] in zone [z]. *)
Definition startOfMonth (z now : Z) : Z :=
  Date.new_Date z (Date.getFullYear z now) (Date.getMonth z now) 1.

Definition startOfLastMonth (z now : Z) : Z :=
  Date.new_Date z (Date.getFullYear z now) (Date.getMonth z now - 1) 1.

Definition endOfLastMonth (z now : Z) : Z :=
  Date.new_Date z (Date.getFullYear z now) (Date.getMonth z now) 0.

(** [admissionDate: { $gte: lower }] *)
Definition date_gte (lower : Z) (a : Admission.t) : bool :=
  lower <=? Admission.admissionDate a.

(** [admissionDate: { $gte: lower, $lte: upper }] *)
Definition date_between (lower upper : Z) (a : Admission.t) : bool :=
  (lower <=? Admission.admissionDate a) && (Admission.admissionDate a <=? upper).

(** [status: "pending"] and [status: { $in: ["inactive", "completed"] }] *)
Definition is_pending (a : Admission.t) : bool :=
  Admission.Status_eqb (Admission.status a) Admission.pending.

Definition is_inactive (a : Admission.t) : bool :=
  existsb (Admission.Status_eqb (Admission.status a))
          [Admission.inactive; Admission.completed].

Definition studentGrowth (studentsThisMonth studentsLastMonth : nat) : number :=
  if (of_nat studentsLastMonth > of_nat 0)%js
  then ((of_nat studentsThisMonth - of_nat studentsLastMonth)
          / of_nat studentsLastMonth * of_Z 100)%js
  else if (of_nat studentsThisMonth > of_nat 0)%js
  then of_Z 100
  else of_Z 0.

Definition admissionGrowth
  (newAdmissionsThisMonth newAdmissionsLastMonth : nat) : number :=
  if (of_nat newAdmissionsLastMonth > of_nat 0)%js
  then ((of_nat newAdmissionsThisMonth - of_nat newAdmissionsLastMonth)
          / of_nat newAdmissionsLastMonth * of_Z 100)%js
  else if (of_nat newAdmissionsThisMonth > of_nat 0)%js
  then of_Z 100
  else of_Z 0.

(** [{ role: { $in: ["teacher", "admin"] }, isActive: true }] *)
Definition staff_filter (u : User.t) : bool :=
  existsb (User.Role_eqb (User.role u)) [User.teacher; User.admin]
  && match User.isActive u with Some true => true | _ => false end.

(** The document the revenue pipeline groups the active admissions into. *)
Module RevenueData.

Record t : Type := mk {
  totalMonthlyRevenue : number;
  avgMonthlyFee : number
}.

End RevenueData.

(** The revenue pipeline: [$match] active, [$group] under [_id: null]
    with [$sum] and [$avg] of [monthlyFee].  No input document, no output
    document. *)
Definition revenue_pipeline (docs : list Admission.t) : list RevenueData.t :=
  match dollar_match is_active docs with
  | [] => []
  | d :: ds =>
      let total := sum_fee (d :: ds) in
      [RevenueData.mk (Fin total)
         (Fin (total / inject_Z (Z.of_nat (List.length (d :: ds)))))]
  end.

(** The distribution pipelines: [$match] active, [$group] by a field with
    [count: { $sum: 1 }], [$sort] by [_id] ascending. *)
Definition distribution_pipeline (field : Admission.t -> string)
  (docs : list Admission.t) : list Bucket.t :=
  dollar_sort (fun a b => String.leb (Bucket._id a) (Bucket._id b))
    (map (fun g => Bucket.mk (fst g) (snd g))
       (dollar_group field String.eqb 0%nat (fun n _ => S n)
          (dollar_match is_active docs))).

Definition YearMonth_eqb (a b : Trend.YearMonth) : bool :=
  (Trend.year a =? Trend.year b) && (Trend.month a =? Trend.month b).

(** [{ year: { $year: "$admissionDate" }, month: { $month: "$admissionDate" } }],
    both read in UTC, the month counted from 1. *)
Definition trend_key (a : Admission.t) : Trend.YearMonth :=
  Trend.mkYearMonth (Date.YearFromTime (Admission.admissionDate a))
                    (Date.MonthFromTime (Admission.admissionDate a) + 1).

(** The trend pipeline: [$match] on the admission date, [$group] by year
    and month with [count] and [revenue], [$sort] by year, then month. *)
Definition trend_pipeline (since : Z) (docs : list Admission.t)
  : list Trend.t :=
  dollar_sort
    (fun a b =>
       (Trend.year (Trend._id a) <? Trend.year (Trend._id b))
       || ((Trend.year (Trend._id a) =? Trend.year (Trend._id b))
           && (Trend.month (Trend._id a) <=? Trend.month (Trend._id b))))
    (map (fun g => Trend.mk (fst g) (of_nat (fst (snd g))) (Fin (snd (snd g))))
       (dollar_group trend_key YearMonth_eqb (0%nat, 0%Q)
          (fun v d => (S (fst v), (snd v + Admission.monthlyFee d)%Q))
          (dollar_match (date_gte since) docs))).

(** [existingData?.count || 0] and [existingData?.revenue || 0] *)
Definition field_or_zero (existingData : option Trend.t)
  (field : Trend.t -> number) : number :=
  match existingData with
  | Some item => (field item || of_Z 0)%js
  | None => of_Z 0
  end.

(** One turn of the loop that fills the trend series. *)
Definition trend_entry (z now : Z) (monthlyTrendsRaw : list Trend.t)
  (i : Z) : Trend.t :=
  let targetDate :=
    Date.new_Date z (Date.getFullYear z now) (Date.getMonth z now - i) 1 in
  let year := Date.getFullYear z targetDate in
  let month := Date.getMonth z targetDate + 1 in
  let existingData :=
    find (fun item =>
            (Trend.year (Trend._id item) =? year)
            && (Trend.month (Trend._id item) =? month))
         monthlyTrendsRaw in
  Trend.mk (Trend.mkYearMonth year month)
    (field_or_zero existingData Trend.count)
    (field_or_zero existingData Trend.revenue).

(** [for (let i = 5; i >= 0; i--) { ... monthlyTrends.push(...) }] *)
Definition fill_trends (z now : Z) (monthlyTrendsRaw : list Trend.t)
  : list Trend.t :=
  fold_left (fun monthlyTrends i =>
               monthlyTrends ++ [trend_entry z now monthlyTrendsRaw i])
            [5; 4; 3; 2; 1; 0] [].

(** [Math.round(x * 10) / 10] *)
Definition round_tenth (x : number) : number :=
  (Math_round (x * of_Z 10) / of_Z 10)%js.

Definition getDashboardOverview (req : AuthRequest) : M Response :=
  try_catch
    (if no_identity req then
       ret (mkResponse 401
              (Failure "Unauthorized - User not authenticated" None))
     else
       now <- Date_now ;;
       z <- zone ;;
       let startOfMonth := startOfMonth z now in
       let startOfLastMonth := startOfLastMonth z now in
       let endOfLastMonth := endOfLastMonth z now in
       totalStudents <- Admission_countDocuments is_active ;;
       studentsThisMonth <-
         Admission_countDocuments
           (fun a => is_active a && date_gte startOfMonth a) ;;
       studentsLastMonth <-
         Admission_countDocuments
           (fun a => is_active a
                     && date_between startOfLastMonth endOfLastMonth a) ;;
       let studentGrowth := studentGrowth studentsThisMonth studentsLastMonth in
       totalTeachers <- User_countDocuments staff_filter ;;
       newAdmissionsThisMonth <-
         Admission_countDocuments (date_gte startOfMonth) ;;
       newAdmissionsLastMonth <-
         Admission_countDocuments
           (date_between startOfLastMonth endOfLastMonth) ;;
       let admissionGrowth :=
         admissionGrowth newAdmissionsThisMonth newAdmissionsLastMonth in
       pendingAdmissions <- Admission_countDocuments is_pending ;;
       inactiveStudents <- Admission_countDocuments is_inactive ;;
       revenueData <- Admission_aggregate revenue_pipeline ;;
       let monthlyRevenue :=
         match revenueData with
         | r :: _ => RevenueData.totalMonthlyRevenue r
         | [] => of_Z 0
         end in
       let avgMonthlyFee :=
         match revenueData with
         | r :: _ => RevenueData.avgMonthlyFee r
         | [] => of_Z 0
         end in
       studentsByClass <-
         Admission_aggregate (distribution_pipeline Admission.class) ;;
       studentsByBatch <-
         Admission_aggregate (distribution_pipeline Admission.batch) ;;
       recentAdmissions <- Admission_find_recent 5 ;;
       monthlyTrendsRaw <-
         Admission_aggregate
           (trend_pipeline
              (Date.new_Date z (Date.getFullYear z now)
                 (Date.getMonth z now - 5) 1)) ;;
       let monthlyTrends := fill_trends z now monthlyTrendsRaw in
       ret (mkResponse 200
              (OverviewData
                 (Report.mk
                    (Report.mkOverview totalStudents totalTeachers
                       newAdmissionsThisMonth pendingAdmissions
                       inactiveStudents
                       (Math_round monthlyRevenue)
                       (Math_round avgMonthlyFee))
                    (Report.mkGrowth (round_tenth studentGrowth)
                                     (round_tenth admissionGrowth))
                    (Report.mkDistribution studentsByClass studentsByBatch)
                    recentAdmissions
                    monthlyTrends))))
    (fun error =>
       console_error "Error fetching dashboard overview:" error ;;;
       ret (mkResponse 500
              (Failure "Failed to fetch dashboard data"
                       (Some (error_text error))))).

Definition getQuickStats (req : AuthRequest) : M Response :=
  try_catch
    (if no_identity req then
       ret (mkResponse 401 (Failure "Unauthorized" None))
     else
       totalActive <- Admission_countDocuments is_active ;;
       totalPending <- Admission_countDocuments is_pending ;;
       totalTeachers <- User_countDocuments staff_filter ;;
       ret (mkResponse 200
              (QuickStatsData
                 (QuickStats.mk totalActive totalPending totalTeachers))))
    (fun error =>
       console_error "Error fetching quick stats:" error ;;;
       ret (mkResponse 500 (Failure "Failed to fetch stats" None))).

(* ===================================================================== *)
(** ** Runs of the handlers *)
(* ===================================================================== *)

(** The first fault among the next [n] queries, if any. *)
Fixpoint first_fault (n : nat) (fs : list (option Thrown)) : option Thrown :=
  match n, fs with
  | O, _ => None
  | S _, [] => None
  | S _, Some e :: _ => Some e
  | S n', None :: fs' => first_fault n' fs'
  end.

(** The world after a series of queries was sent. *)
Definition sent_all (cs : list Collection) (w : World) : World :=
  fold_left (fun w c => sent c w) cs w.

(** The queries of a complete run of each handler, in order. *)
Definition overview_queries : list Collection :=
  [AdmissionCollection; AdmissionCollection; AdmissionCollection;
   UserCollection;
   AdmissionCollection; AdmissionCollection; AdmissionCollection;
   AdmissionCollection; AdmissionCollection; AdmissionCollection;
   AdmissionCollection; AdmissionCollection; AdmissionCollection].

Definition quick_stats_queries : list Collection :=
  [AdmissionCollection; AdmissionCollection; UserCollection].

(** Number of admissions of the world that satisfy [cond]. *)
Definition count_admissions (cond : Admission.t -> bool) (w : World) : nat :=
  List.length (dollar_match cond (admissions w)).

Definition count_users (cond : User.t -> bool) (w : World) : nat :=
  List.length (dollar_match cond (users w)).

(** The counts behind the two growth figures. *)
Definition studentsThisMonth (w : World) : nat :=
  count_admissions
    (fun a => is_active a && date_gte (startOfMonth (tza w) (clock w)) a) w.

Definition studentsLastMonth (w : World) : nat :=
  count_admissions
    (fun a => is_active a
              && date_between (startOfLastMonth (tza w) (clock w))
                              (endOfLastMonth (tza w) (clock w)) a) w.

Definition newAdmissionsThisMonth (w : World) : nat :=
  count_admissions (date_gte (startOfMonth (tza w) (clock w))) w.

Definition newAdmissionsLastMonth (w : World) : nat :=
  count_admissions
    (date_between (startOfLastMonth (tza w) (clock w))
                  (endOfLastMonth (tza w) (clock w))) w.

(** Start of the six months of the trend series. *)
Definition trend_start (w : World) : Z :=
  Date.new_Date (tza w) (Date.getFullYear (tza w) (clock w))
                (Date.getMonth (tza w) (clock w) - 5) 1.

Definition monthlyTrendsRaw (w : World) : list Trend.t :=
  trend_pipeline (trend_start w) (admissions w).

(** The report a run of [getDashboardOverview] answers with when no query
    fails ([getDashboardOverview_ok] below). *)
Definition overview_report (w : World) : Report.t :=
  let revenueData := revenue_pipeline (admissions w) in
  Report.mk
    (Report.mkOverview
       (count_admissions is_active w)
       (count_users staff_filter w)
       (newAdmissionsThisMonth w)
       (count_admissions is_pending w)
       (count_admissions is_inactive w)
       (Math_round match revenueData with
                   | r :: _ => RevenueData.totalMonthlyRevenue r
                   | [] => of_Z 0
                   end)
       (Math_round match revenueData with
                   | r :: _ => RevenueData.avgMonthlyFee r
                   | [] => of_Z 0
                   end))
    (Report.mkGrowth
       (round_tenth (studentGrowth (studentsThisMonth w) (studentsLastMonth w)))
       (round_tenth
          (admissionGrowth (newAdmissionsThisMonth w) (newAdmissionsLastMonth w))))
    (Report.mkDistribution
       (distribution_pipeline Admission.class (admissions w))
       (distribution_pipeline Admission.batch (admissions w)))
    (map select_recent
       (firstn 5
          (dollar_sort
             (fun a b => Admission.admissionDate b <=? Admission.admissionDate a)
             (admissions w))))
    (fill_trends (tza w) (clock w) (monthlyTrendsRaw w)).

Definition quick_stats (w : World) : QuickStats.t :=
  QuickStats.mk (count_admissions is_active w)
                (count_admissions is_pending w)
                (count_users staff_filter w).

(* ===================================================================== *)
(** ** Vocabulary of the specification *)
(* ===================================================================== *)

(** A request that carries a caller identity, and a world whose next [n]
    queries all succeed. *)
Definition authenticated (req : AuthRequest) : Prop := no_identity req = false.

Definition fault_free (n : nat) (w : World) : Prop :=
  first_fault n (faults w) = None.



Definition Q_of_nat (n : nat) : Q := inject_Z (Z.of_nat n).


(** Number of elements of [l] with the decidable property [P]. *)
Definition number_of {A} {P : A -> Prop} (dec : forall a, {P a} + {~ P a})
  (l : list A) : nat :=
  List.length (filter (fun a => if dec a then true else false) l).

(** Staff: a user whose role is teacher or admin and whose [isActive] field
    is [true]. *)
Definition is_staff (u : User.t) : Prop :=
  (User.role u = User.teacher \/ User.role u = User.admin)
  /\ User.isActive u = Some true.

Definition is_staff_dec (u : User.t) : {is_staff u} + {~ is_staff u}.
Proof.
  unfold is_staff.
  destruct (User.Role_eq_dec (User.role u) User.teacher) as [Ht | Ht];
    destruct (User.Role_eq_dec (User.role u) User.admin) as [Ha | Ha];
    destruct (User.isActive u) as [[ | ] | ];
    solve [ left; auto | right; intros [[? | ?] ?]; congruence ].
Defined.

(** A user document as the schema of [modal/user.ts] writes it: without an
    [isActive] field. *)
Definition schema_conforming (u : User.t) : Prop := User.isActive u = None.

(** The active admissions, and their fees. *)
Definition has_status (s : Admission.Status) (a : Admission.t) : Prop :=
  Admission.status a = s.


Definition total (l : list Q) : Q := fold_right Qplus 0%Q l.


(** Calendar months numbered consecutively: month [m] (from 0) of year [y]
    is month [12 * y + m]; [calendar_month z t] is the month local time [t]
    falls in. *)
Definition calendar_month (z t : Z) : Z :=
  12 * Date.getFullYear z t + Date.getMonth z t.


(** A distribution list for the grouping field [field]: strictly ascending
    in its keys, the keys being exactly the values of the field among the
    active admissions. *)
Definition distribution_of (field : Admission.t -> string) (w : World)
  (l : list Bucket.t) : Prop :=
  Sorted (fun a b => String.leb (Bucket._id a) (Bucket._id b) = true) l
  /\ NoDup (map Bucket._id l)
  /\ StronglySorted (fun a b => String.ltb (Bucket._id a) (Bucket._id b) = true) l
  /\ (forall k, In k (map Bucket._id l) <->
                exists a, In a (admissions w)
                          /\ has_status Admission.active a /\ field a = k).



(** The recent-admissions list of a report in world [w]: the five latest
    admissions, or all of them when there are fewer, each as the projection
    shows it, the latest first; [rest] stands for the admissions left out. *)
Definition recent_list (w : World) (l : list Recent.t) : Prop :=
  List.length l = Nat.min 5 (List.length (admissions w))
  /\ StronglySorted
       (fun a b => Recent.admissionDate b <= Recent.admissionDate a) l
  /\ exists rest,
       Permutation (map select_recent (admissions w)) (l ++ rest)
       /\ forall e x, In e l -> In x rest ->
            Recent.admissionDate x <= Recent.admissionDate e.

(** The value a [$group] accumulates for key [k] over [docs], from [v]. *)
Definition tally {D K V} (key : D -> K) (key_eqb : K -> K -> bool)
  (step : V -> D -> V) (k : K) (docs : list D) (v : V) : V :=
  fold_left (fun v d => if key_eqb k (key d) then step v d else v) docs v.

(** The active admissions whose grouping field is [k]. *)
Definition in_bucket (field : Admission.t -> string) (k : string)
  (a : Admission.t) : Prop :=
  has_status Admission.active a /\ field a = k.

Definition in_bucket_dec field k a : {in_bucket field k a} + {~ in_bucket field k a}.
Proof.
  unfold in_bucket, has_status.
  destruct (Admission.Status_eq_dec (Admission.status a) Admission.active);
    destruct (string_dec (field a) k); (left; tauto) || (right; tauto).
Defined.

(** The counts of a distribution list. *)
Definition distribution_counts (field : Admission.t -> string) (w : World)
  (l : list Bucket.t) : Prop :=
  forall b, In b l ->
    Bucket.count b = number_of (in_bucket_dec field (Bucket._id b)) (admissions w).

(** The admissions the trend pipeline reads for the series of world [w]
    that fall in the year and month [ym]. *)
Definition admitted_in (w : World) (ym : Trend.YearMonth) : list Admission.t :=
  filter (fun a => YearMonth_eqb ym (trend_key a))
         (filter (date_gte (trend_start w)) (admissions w)).


(** *** Sample worlds *)

Definition sample_request : AuthRequest := mkRequest (Some (mkAuthUser "u1")).

Definition sample_admission (i : nat) (c b : string) (d : Z)
  (s : Admission.Status) (fee : Q) : Admission.t :=
  Admission.mk i "student" c b d s fee.

Definition sample_user (r : User.Role) (a : option bool) : User.t :=
  User.mk "user" "user@example.org" None r None User.credentials None None []
          false 0 0 a.

(** The clock reads 2024-03-15T12:00:00Z, the server runs in UTC; the
    admissions are dated 2024-02-29T00:00, 2024-02-29T10:00,
    2024-03-09T16:00, 2024-02-01T15:06 and 2023-10-22T18:40. *)
Definition sample_world : World :=
  mkWorld
    [ sample_admission 1 "10" "B" 1709164800000 Admission.active 1500;
      sample_admission 2 "9" "A" 1709200800000 Admission.active (2001 # 2);
      sample_admission 3 "10" "A" 1710000000000 Admission.active 1000;
      sample_admission 4 "8" "A" 1706800000000 Admission.pending 700;
      sample_admission 5 "9" "C" 1698000000000 Admission.completed 700 ]
    [ sample_user User.teacher (Some true);
      sample_user User.admin None;
      sample_user User.student (Some true) ]
    1710504000000 0 [] [] [].

(** The same store, the second query failing. *)
Definition faulty_world : World :=
  mkWorld (admissions sample_world) (users sample_world) 1710504000000 0
          [None; Some (ErrorObject "connection reset")] [] [].

(** The users as the schema writes them: none has an [isActive] field. *)
Definition schema_world : World :=
  mkWorld (admissions sample_world)
          [ sample_user User.teacher None; sample_user User.admin None ]
          1710504000000 0 [] [] [].

(** A server six hours ahead of UTC, its clock reading 2024-03-15T12:00
    local time, and one admission dated 2024-03-01T02:00 local time, which is
    2024-02-29T20:00:00Z. *)
Definition ahead_of_utc_world : World :=
  mkWorld [ sample_admission 1 "10" "A" 1709236800000 Admission.active 1500 ]
          [] 1710482400000 21600000 [] [] [].

(** One active admission, dated 2024-02-29T10:00:00Z, the clock reading
    2024-03-15T12:00:00Z in UTC. *)
Definition last_day_world : World :=
  mkWorld [ sample_admission 1 "10" "A" 1709200800000 Admission.active 1500 ]
          [] 1710504000000 0 [] [] [].

(** *** Further vocabulary: traces, totals and windows *)

(** Number of queries a run of [n] queries sends under the fault schedule
    [fs]: all [n] when none of them fails, and otherwise those up to and
    including the first one that fails. *)
Fixpoint queries_sent (n : nat) (fs : list (option Thrown)) : nat :=
  match n with
  | O => O
  | S n' =>
      match fs with
      | [] => S n'
      | Some _ :: _ => 1%nat
      | None :: fs' => S (queries_sent n' fs')
      end
  end.

(** Sum of the counts of a distribution list. *)
Definition bucket_total (l : list Bucket.t) : nat :=
  fold_right (fun b n => (Bucket.count b + n)%nat) 0%nat l.

(** Start of the calendar month after the clock's, in the way the handler
    computes its other boundaries. *)
Definition startOfNextMonth (z now : Z) : Z :=
  Date.new_Date z (Date.getFullYear z now) (Date.getMonth z now + 1) 1.

(** Start of the calendar month [k] months after the clock's (before it
    for a negative [k]), in the way the handler computes its boundaries. *)
Definition month_start (w : World) (k : Z) : Z :=
  Date.new_Date (tza w) (Date.getFullYear (tza w) (clock w))
                (Date.getMonth (tza w) (clock w) + k) 1.

(** The admissions of [w] dated from [lower] on and before [upper]. *)
Definition admissions_dated (lower upper : Z) (w : World) : list Admission.t :=
  filter (fun a => (lower <=? Admission.admissionDate a)
                   && (Admission.admissionDate a <? upper))
         (admissions w).

(** The order of the date boundaries of a run at clock reading [now]. *)
Definition windows_ordered (z now : Z) : Prop :=
  startOfLastMonth z now <= endOfLastMonth z now
  /\ endOfLastMonth z now < startOfMonth z now
  /\ startOfMonth z now <= now
  /\ now < startOfNextMonth z now.

(** The figures of a trend entry [e] are those of the admissions [l]. *)
Definition figures_of (e : Trend.t) (l : list Admission.t) : Prop :=
  Trend.count e = of_nat (List.length l)
  /\ Trend.revenue e =~ Fin (total (map Admission.monthlyFee l)).

(** The three ways a run of a handler ends. *)
Inductive Outcome : Type :=
| Unauthorized
| Succeeded
| Failed (e : Thrown).

(** The outcome of a run of [n] queries for request [req] in world [w]. *)
Definition outcome (n : nat) (req : AuthRequest) (w : World) : Outcome :=
  if no_identity req then Unauthorized
  else match first_fault n (faults w) with
       | None => Succeeded
       | Some e => Failed e
       end.

(** The trace a run of [n] queries [qs] leaves, from world [w] to [w']:
    the queries sent are the first ones of [qs], as many as the fault schedule
    lets through plus the one that fails; each consumed one entry of the
    schedule; the console has one more line when a query failed. *)
Definition run_trace (n : nat) (qs : list Collection) (msg : string)
  (w w' : World) : Prop :=
  issued w' = issued w ++ firstn (queries_sent n (faults w)) qs
  /\ faults w' = skipn (queries_sent n (faults w)) (faults w)
  /\ console w'
     = console w ++ match first_fault n (faults w) with
                    | Some e => [(msg, e)]
                    | None => []
                    end.

(** Bounds of a growth figure [g] for the counts of this month and of the
    month before. *)
Definition growth_bounded (this_month last_month : nat) (g : Q) : Prop :=
  (-100 <= g)%Q
  /\ (last_month = 0%nat -> (g == 0 \/ g == 100)%Q)
  /\ ((0 < last_month)%nat -> (this_month <= last_month)%nat -> (g <= 0)%Q)
  /\ ((0 < last_month)%nat -> (last_month <= this_month)%nat -> (0 <= g)%Q)
  /\ ((0 < last_month)%nat -> this_month = 0%nat -> (g == -100)%Q).



(** The admissions dated at or after [lower]. *)
Definition admissions_from (lower : Z) (w : World) : list Admission.t :=
  filter (date_gte lower) (admissions w).
(* ===================================================================== *)
(** ** The user schema ([modal/user.ts]) *)
(* ===================================================================== *)

(** *** The pattern of the [email] path

    A regular expression is matched against the UTF-16 code units of a
    string; the pattern of the schema has no flag, so it reads a string
    unit by unit. *)

Module RegExp.

(** [\s]: the code units of ECMAScript's WhiteSpace and LineTerminator. *)
Definition WhiteSpace (c : N) : bool :=
  ((c =? 9) || (c =? 11) || (c =? 12) || (c =? 32) || (c =? 160)
   || (c =? 5760) || ((8192 <=? c) && (c <=? 8202)) || (c =? 8239)
   || (c =? 8287) || (c =? 12288) || (c =? 65279))%N.

Definition LineTerminator (c : N) : bool :=
  ((c =? 10) || (c =? 13) || (c =? 8232) || (c =? 8233))%N.

Definition is_space (c : N) : bool := WhiteSpace c || LineTerminator c.

(** The patterns the schema needs; [Never] and [Or] arise while
    matching. *)
Inductive t : Type :=
| Never
| Empty
| Unit (c : N)            (* a pattern character *)
| NonSpace                (* [\S] *)
| Seq (r s : t)
| Or (r s : t)
| Star (r : t).

(** [r+] *)
Definition Plus (r : t) : t := Seq r (Star r).

Fixpoint nullable (r : t) : bool :=
  match r with
  | Never | Unit _ | NonSpace => false
  | Empty | Star _ => true
  | Seq r s => nullable r && nullable s
  | Or r s => nullable r || nullable s
  end.

(** What is left of [r] once the code unit [c] is read. *)
Fixpoint after (c : N) (r : t) : t :=
  match r with
  | Never | Empty => Never
  | Unit d => if (c =? d)%N then Empty else Never
  | NonSpace => if is_space c then Never else Empty
  | Seq r s =>
      if nullable r then Or (Seq (after c r) s) (after c s)
      else Seq (after c r) s
  | Or r s => Or (after c r) (after c s)
  | Star r => Seq (after c r) (Star r)
  end.

(** [/^r$/.test(s)] *)
Definition test (r : t) (s : list N) : bool :=
  nullable (fold_left (fun r c => after c r) s r).

(** The strings a pattern stands for. *)
Inductive matches : t -> list N -> Prop :=
| matches_Empty : matches Empty []
| matches_Unit c : matches (Unit c) [c]
| matches_NonSpace c : is_space c = false -> matches NonSpace [c]
| matches_Seq r s u v :
    matches r u -> matches s v -> matches (Seq r s) (u ++ v)
| matches_Or_l r s u : matches r u -> matches (Or r s) u
| matches_Or_r r s u : matches s u -> matches (Or r s) u
| matches_Star_nil r : matches (Star r) []
| matches_Star_cons r u v :
    matches r u -> matches (Star r) v -> matches (Star r) (u ++ v).

(** A string without white space. *)
Definition no_space (s : list N) : Prop :=
  Forall (fun c => is_space c = false) s.

End RegExp.

(** [/^\S+@\S+\.\S+$/] *)
Definition emailPattern : RegExp.t :=
  RegExp.Seq (RegExp.Plus RegExp.NonSpace)
    (RegExp.Seq (RegExp.Unit 64)
       (RegExp.Seq (RegExp.Plus RegExp.NonSpace)
          (RegExp.Seq (RegExp.Unit 46) (RegExp.Plus RegExp.NonSpace)))).

(** A string of the shape [local@domain.tail]: three parts, none empty,
    the first two followed by ["@"] and by ["."], and no white space
    anywhere. *)
Definition address_shape (s : list N) : Prop :=
  exists local domain tail,
    s = local ++ 64%N :: domain ++ 46%N :: tail
    /\ local <> [] /\ domain <> [] /\ tail <> []
    /\ RegExp.no_space s.

(** *** The password of a user

    [bcrypt.hash] and [bcrypt.compare] are those of the [bcryptjs] package;
    the salt is the one [bcrypt.genSalt(10)] yields for the save. *)

Section Password.

Variable Salt : Type.
Variable bcrypt_hash : string -> Salt -> string.
Variable bcrypt_compare : string -> string -> bool.

(** [!this.password]: no password, or the empty string. *)
Definition no_password (u : User.t) : bool :=
  match User.password u with
  | None => true
  | Some p => String.eqb p ""
  end.

Definition set_password (u : User.t) (p : string) : User.t :=
  User.mk (User.name u) (User.email u) (Some p) (User.role u)
          (User.userType u) (User.provider u) (User.providerId u)
          (User.avatar u) (User.permissions u) (User.isEmailVerified u)
          (User.createdAt u) (User.updatedAt u) (User.isActive u).

(** The [pre("save")] hook; [isModified_password] is
    [this.isModified("password")]. *)
Definition pre_save (isModified_password : bool) (salt : Salt) (u : User.t)
  : User.t :=
  if negb isModified_password || no_password u then u
  else match User.password u with
       | Some p => set_password u (bcrypt_hash p salt)
       | None => u
       end.

Definition comparePassword (u : User.t) (candidatePassword : string) : bool :=
  if no_password u then false
  else match User.password u with
       | Some p => bcrypt_compare candidatePassword p
       | None => false
       end.

(** Saves that leave the password untouched, one salt drawn for each. *)
Definition later_saves (salts : list Salt) (u : User.t) : User.t :=
  fold_left (fun u salt => pre_save false salt u) salts u.

(** Any sequence of saves, each with its modification flag and salt. *)
Definition saves (l : list (bool * Salt)) (u : User.t) : User.t :=
  fold_left (fun u s => pre_save (fst s) (snd s) u) l u.

(** What the password functions of [bcryptjs] guarantee: a hash is never
    the empty string, and a password compares equal to each of its
    hashes. *)
Definition bcrypt_contract : Prop :=
  (forall p salt, bcrypt_hash p salt <> "")
  /\ (forall p salt, bcrypt_compare p (bcrypt_hash p salt) = true).

End Password.

Arguments pre_save {Salt} bcrypt_hash isModified_password salt u.
Arguments later_saves {Salt} bcrypt_hash salts u.
Arguments saves {Salt} bcrypt_hash l u.
Arguments bcrypt_contract {Salt} bcrypt_hash bcrypt_compare.

(** A transparent instance of the contract: the hash of a password is the
    password behind the salt's digit. *)
Definition marked_hash (p : string) (salt : ascii) : string := String salt p.

Definition marked_compare (candidate hash : string) : bool :=
  match hash with
  | String _ p => String.eqb candidate p
  | EmptyString => false
  end.

Definition sample_account : User.t :=
  User.mk "user" "user@example.org" (Some "secret1") User.student
          (Some User.sub_user) User.credentials None None [] false 0 0 None.

(* ===================================================================== *)
(** * Properties *)
(* ===================================================================== *)

(* --------------------------------------------------------------------- *)
(** ** Runs, query by query *)
(* --------------------------------------------------------------------- *)

Lemma bind_Date_now {B} (k : Z -> M B) w : bind Date_now k w = k (clock w) w.
Proof. reflexivity. Qed.

Lemma bind_zone {B} (k : Z -> M B) w : bind zone k w = k (tza w) w.
Proof. reflexivity. Qed.

Lemma first_fault_sent n c w :
  first_fault (S n) (faults w) = None -> first_fault n (faults (sent c w)) = None.
Proof.
  cbn [sent faults]. destruct (faults w) as [ | [e | ] fs]; cbn [first_fault tl].
  - destruct n; reflexivity.
  - discriminate.
  - trivial.
Qed.

Lemma bind_query_ok {A B} n c (answer : World -> A) (k : A -> M B) w :
  first_fault (S n) (faults w) = None ->
  bind (query c answer) k w = k (answer w) (sent c w).
Proof.
  unfold bind, query.
  destruct (faults w) as [ | [e | ] fs]; cbn [first_fault]; try discriminate;
    reflexivity.
Qed.


Lemma getDashboardOverview_unauthenticated req w :
  no_identity req = true ->
  getDashboardOverview req w
  = (inr (mkResponse 401 (Failure "Unauthorized - User not authenticated" None)), w).
Proof.
  intros H. unfold getDashboardOverview, try_catch. rewrite H. reflexivity.
Qed.

(** One successful query of a run: the continuation goes on in the world
    where the query was sent. *)
Ltac run_query H :=
  lazymatch goal with
  | |- context [bind (query ?c ?a) ?k ?w] =>
      lazymatch type of H with
      | first_fault (S ?n) (faults w) = None =>
          rewrite (bind_query_ok n c a k w H);
          apply (first_fault_sent n c w) in H
      end
  end.

Ltac unfold_store_calls :=
  unfold Admission_countDocuments, User_countDocuments, Admission_aggregate,
    Admission_find_recent.

Ltac unfold_views :=
  unfold overview_report, quick_stats, monthlyTrendsRaw, trend_start,
    studentsThisMonth, studentsLastMonth, newAdmissionsThisMonth,
    newAdmissionsLastMonth, count_admissions, count_users, sent_all,
    overview_queries, quick_stats_queries;
  cbn [fold_left].

Lemma getDashboardOverview_ok req w :
  no_identity req = false ->
  first_fault 13 (faults w) = None ->
  getDashboardOverview req w
  = (inr (mkResponse 200 (OverviewData (overview_report w))),
     sent_all overview_queries w).
Proof.
  intros Hid H. unfold getDashboardOverview, try_catch. rewrite Hid.
  rewrite bind_Date_now, bind_zone. cbv zeta. unfold_store_calls.
  do 13 run_query H.
  cbv beta. cbn [sent admissions users clock tza]. unfold_views.
  reflexivity.
Qed.

Lemma getQuickStats_unauthenticated req w :
  no_identity req = true ->
  getQuickStats req w = (inr (mkResponse 401 (Failure "Unauthorized" None)), w).
Proof.
  intros H. unfold getQuickStats, try_catch. rewrite H. reflexivity.
Qed.

Lemma getQuickStats_ok req w :
  no_identity req = false ->
  first_fault 3 (faults w) = None ->
  getQuickStats req w
  = (inr (mkResponse 200 (QuickStatsData (quick_stats w))),
     sent_all quick_stats_queries w).
Proof.
  intros Hid H. unfold getQuickStats, try_catch. rewrite Hid.
  unfold_store_calls.
  do 3 run_query H.
  cbv beta. cbn [sent admissions users clock tza]. unfold_views.
  reflexivity.
Qed.




(* --------------------------------------------------------------------- *)
(** ** Numbers and growth *)
(* --------------------------------------------------------------------- *)


Lemma gt_of_nat_0 (n : nat) : (of_nat n > of_nat 0)%js = (0 <? n)%nat.
Proof.
  unfold JS.gt, of_nat, of_Z, Qcompare. cbn [Qnum Qden inject_Z].
  rewrite !Z.mul_1_r.
  destruct n as [ | n]; reflexivity.
Qed.

Lemma Qeq_bool_of_nat (n : nat) :
  Qeq_bool (inject_Z (Z.of_nat n)) 0 = (n =? 0)%nat.
Proof.
  unfold Qeq_bool. cbn [Qnum Qden inject_Z]. rewrite !Z.mul_1_r.
  destruct n; reflexivity.
Qed.

Lemma round_tenth_Fin (q : Q) :
  round_tenth (Fin q) = Fin (inject_Z (Qfloor (q * 10 + (1 # 2))) / 10).
Proof. reflexivity. Qed.

Lemma studentGrowth_eq c p :
  studentGrowth c p =
  if (0 <? p)%nat then Fin ((Q_of_nat c - Q_of_nat p) / Q_of_nat p * 100)
  else if (0 <? c)%nat then Fin 100 else Fin 0.
Proof.
  unfold studentGrowth. rewrite !gt_of_nat_0.
  destruct p as [ | p]; [reflexivity | ].
  cbn [Nat.ltb Nat.leb]. unfold of_nat, of_Z, JS.sub, JS.div, JS.mul.
  rewrite Qeq_bool_of_nat. reflexivity.
Qed.

Lemma admissionGrowth_eq c p :
  admissionGrowth c p =
  if (0 <? p)%nat then Fin ((Q_of_nat c - Q_of_nat p) / Q_of_nat p * 100)
  else if (0 <? c)%nat then Fin 100 else Fin 0.
Proof.
  unfold admissionGrowth. rewrite !gt_of_nat_0.
  destruct p as [ | p]; [reflexivity | ].
  cbn [Nat.ltb Nat.leb]. unfold of_nat, of_Z, JS.sub, JS.div, JS.mul.
  rewrite Qeq_bool_of_nat. reflexivity.
Qed.


Section GrowthRule.

Variable growth : nat -> nat -> number.
Hypothesis growth_eq : forall c p,
  growth c p =
  if (0 <? p)%nat then Fin ((Q_of_nat c - Q_of_nat p) / Q_of_nat p * 100)
  else if (0 <? c)%nat then Fin 100 else Fin 0.


Lemma growth_finite (prior current : nat) :
  is_finite (growth current prior) = true
  /\ is_finite (round_tenth (growth current prior)) = true.
Proof.
  rewrite growth_eq.
  destruct (0 <? prior)%nat; [ | destruct (0 <? current)%nat]; split; reflexivity.
Qed.

End GrowthRule.

Lemma div_by_zero_not_finite (x : number) : is_finite (x / of_nat 0)%js = false.
Proof.
  destruct x as [q | | | ]; try reflexivity.
  unfold JS.div, of_nat, of_Z. cbn [Z.of_nat].
  change (Qeq_bool (inject_Z 0) 0) with true. cbn iota.
  destruct (q ?= 0)%Q; reflexivity.
Qed.

Lemma not_finite_propagates (x : number) :
  is_finite x = false -> is_finite (round_tenth (x * of_Z 100)%js) = false.
Proof.
  destruct x as [q | | | ]; try discriminate; intros _; reflexivity.
Qed.

(* --------------------------------------------------------------------- *)
(** ** Calendar arithmetic *)
(* --------------------------------------------------------------------- *)

Module DateFacts.
Import Date.

Lemma DayFromYear_succ y : DayFromYear (y + 1) = DayFromYear y + DaysInYear y.
Proof.
  unfold DayFromYear, DaysInYear, isLeapYear.
  destruct (Z.eqb_spec (y mod 4) 0), (Z.eqb_spec (y mod 100) 0),
    (Z.eqb_spec (y mod 400) 0); cbn [andb orb negb];
    Z.to_euclidean_division_equations; lia.
Qed.

Lemma DayFromYear_mono y1 y2 : y1 < y2 -> DayFromYear y1 < DayFromYear y2.
Proof. unfold DayFromYear. intros. Z.to_euclidean_division_equations; lia. Qed.

Lemma YearFromDay_spec d :
  DayFromYear (YearFromDay d) <= d < DayFromYear (YearFromDay d + 1).
Proof.
  unfold YearFromDay.
  set (y := 1970 + 400 * d / 146097).
  assert (Hlo : DayFromYear (y - 1) <= d).
  { subst y. unfold DayFromYear. Z.to_euclidean_division_equations; lia. }
  assert (Hhi : d < DayFromYear (y + 2)).
  { subst y. unfold DayFromYear. Z.to_euclidean_division_equations; lia. }
  destruct (Z.leb_spec (DayFromYear (y + 1)) d).
  - replace (y + 1 + 1) with (y + 2) by lia. lia.
  - destruct (Z.leb_spec (DayFromYear y) d).
    + lia.
    + replace (y - 1 + 1) with y by lia. lia.
Qed.

Lemma DayFromYear_mono_le y1 y2 : y1 <= y2 -> DayFromYear y1 <= DayFromYear y2.
Proof. unfold DayFromYear. intros. Z.to_euclidean_division_equations; lia. Qed.

Lemma YearFromDay_unique y d :
  DayFromYear y <= d < DayFromYear (y + 1) -> YearFromDay d = y.
Proof.
  intros H. pose proof (YearFromDay_spec d) as S.
  destruct (Z.lt_trichotomy (YearFromDay d) y) as [L | [E | G]]; [ | exact E | ].
  - pose proof (DayFromYear_mono_le (YearFromDay d + 1) y). lia.
  - pose proof (DayFromYear_mono_le (y + 1) (YearFromDay d)). lia.
Qed.

Lemma Day_MakeDate d : Day (MakeDate d 0) = d.
Proof. unfold Day, MakeDate, msPerDay. rewrite Z.add_0_r. apply Z.div_mul. lia. Qed.

Lemma monthStart_range leap m :
  0 <= leap <= 1 -> 0 <= m <= 11 ->
  0 <= monthStart leap m < 365 + leap.
Proof.
  intros Hl Hm.
  assert (m = 0 \/ m = 1 \/ m = 2 \/ m = 3 \/ m = 4 \/ m = 5 \/ m = 6
          \/ m = 7 \/ m = 8 \/ m = 9 \/ m = 10 \/ m = 11) as C by lia.
  repeat (destruct C as [-> | C]); try subst m; cbn [monthStart]; lia.
Qed.

Section FirstOfMonth.

Variables y m : Z.
Hypothesis m_range : 0 <= m <= 11.

Let leap := if isLeapYear y then 1 else 0.
Let t := MakeDate (DayFromYear y + monthStart leap m) 0.

Lemma YearFromTime_first : YearFromTime t = y.
Proof.
  unfold YearFromTime, t. rewrite Day_MakeDate.
  apply YearFromDay_unique. rewrite DayFromYear_succ.
  pose proof (monthStart_range leap m) as R.
  unfold DaysInYear. subst leap. destruct (isLeapYear y); lia.
Qed.

Lemma MonthFromTime_first : MonthFromTime t = m.
Proof.
  unfold MonthFromTime, DayWithinYear, InLeapYear.
  rewrite YearFromTime_first. fold leap.
  unfold t. rewrite Day_MakeDate.
  replace (DayFromYear y + monthStart leap m - DayFromYear y)
    with (monthStart leap m) by lia.
  assert (0 <= leap <= 1) as Hl by (subst leap; destruct (isLeapYear y); lia).
  assert (m = 0 \/ m = 1 \/ m = 2 \/ m = 3 \/ m = 4 \/ m = 5 \/ m = 6
          \/ m = 7 \/ m = 8 \/ m = 9 \/ m = 10 \/ m = 11) as C by lia.
  clearbody leap. clear t.
  repeat (destruct C as [C | C]); subst m; cbn [monthStart];
    repeat match goal with
      | |- context [?a <? ?b] => destruct (Z.ltb_spec a b); try lia
      end.
Qed.

End FirstOfMonth.

Lemma new_Date_first z year month :
  ~ (0 <= year <= 99) ->
  getFullYear z (new_Date z year month 1) = year + month / 12
  /\ getMonth z (new_Date z year month 1) = month mod 12.
Proof.
  intros Hy. unfold getFullYear, getMonth, new_Date, LocalTime, UTC, MakeDay.
  replace ((0 <=? year) && (year <=? 99)) with false
    by (symmetry; apply andb_false_iff; lia).
  set (ym := year + month / 12). set (mn := month mod 12).
  set (leap := if isLeapYear ym then 1 else 0).
  replace (MakeDate (DayFromYear ym + monthStart leap mn + 1 - 1) 0 - z + z)
    with (MakeDate (DayFromYear ym + monthStart leap mn) 0).
  2:{ unfold MakeDate, msPerDay. lia. }
  assert (0 <= mn <= 11) as R by (subst mn; pose proof (Z.mod_pos_bound month 12); lia).
  split.
  - apply YearFromTime_first; exact R.
  - apply MonthFromTime_first; exact R.
Qed.

End DateFacts.

(* --------------------------------------------------------------------- *)
(** ** Grouping and sorting *)
(* --------------------------------------------------------------------- *)

Section GroupFacts.

Context {D K V : Type}.
Variable key : D -> K.
Variable key_eqb : K -> K -> bool.
Variable init : V.
Variable step : V -> D -> V.
Hypothesis key_eqb_eq : forall a b, key_eqb a b = true <-> a = b.

Let up := upsert key key_eqb init step.

Lemma upsert_keys d groups k :
  In k (map fst (up d groups)) <-> In k (map fst groups) \/ k = key d.
Proof.
  induction groups as [ | [k' v] rest IH]; cbn [up upsert map fst In].
  - intuition.
  - destruct (key_eqb k' (key d)) eqn:E; cbn [map fst In].
    + apply key_eqb_eq in E. subst k'. intuition.
    + fold up. rewrite IH. intuition.
Qed.

Lemma upsert_NoDup d groups :
  NoDup (map fst groups) -> NoDup (map fst (up d groups)).
Proof.
  induction groups as [ | [k' v] rest IH]; cbn [up upsert map fst]; intros H.
  - constructor; [intros [] | constructor].
  - destruct (key_eqb k' (key d)) eqn:E; cbn [map fst].
    + exact H.
    + fold up. inversion H as [ | ? ? Hn Hr]; subst.
      constructor; [ | apply IH; exact Hr].
      rewrite upsert_keys. intros [Hin | ->]; [contradiction | ].
      assert (key_eqb (key d) (key d) = true) as T by (apply key_eqb_eq; reflexivity).
      congruence.
Qed.

Lemma group_from_keys docs groups k :
  In k (map fst (fold_left (fun g d => up d g) docs groups))
  <-> In k (map fst groups) \/ exists d, In d docs /\ key d = k.
Proof.
  revert groups. induction docs as [ | d docs IH]; intros groups; cbn [fold_left].
  - split; [auto | intros [H | (d & [] & _)]; exact H].
  - rewrite IH, upsert_keys. split.
    + intros [[H | ->] | (d' & Hin & Hk)]; eauto.
      * right. exists d. split; [left | ]; reflexivity.
      * right. exists d'. split; [right | ]; assumption.
    + intros [H | (d' & [-> | Hin] & Hk)]; eauto.
Qed.

Lemma group_from_NoDup docs groups :
  NoDup (map fst groups) ->
  NoDup (map fst (fold_left (fun g d => up d g) docs groups)).
Proof.
  revert groups. induction docs as [ | d docs IH]; intros groups H; cbn [fold_left].
  - exact H.
  - apply IH, upsert_NoDup, H.
Qed.

Lemma dollar_group_keys docs k :
  In k (map fst (dollar_group key key_eqb init step docs))
  <-> exists d, In d docs /\ key d = k.
Proof.
  unfold dollar_group. fold up. rewrite group_from_keys. cbn [map In]. intuition.
Qed.

Lemma dollar_group_NoDup docs :
  NoDup (map fst (dollar_group key key_eqb init step docs)).
Proof. unfold dollar_group. apply group_from_NoDup. constructor. Qed.

End GroupFacts.

Section SortFacts.

Context {A : Type}.
Variable leb : A -> A -> bool.

Lemma insert_perm x l : Permutation (insert leb x l) (x :: l).
Proof.
  induction l as [ | y l IH]; cbn [insert].
  - reflexivity.
  - destruct (leb x y); [reflexivity | ].
    rewrite IH. apply perm_swap.
Qed.

Lemma dollar_sort_perm l : Permutation (dollar_sort leb l) l.
Proof.
  induction l as [ | x l IH]; cbn [dollar_sort fold_right].
  - reflexivity.
  - fold (dollar_sort leb l). rewrite insert_perm, IH. reflexivity.
Qed.

Lemma dollar_sort_In l x : In x (dollar_sort leb l) <-> In x l.
Proof.
  split; apply Permutation_in; [ | symmetry]; apply dollar_sort_perm.
Qed.

Hypothesis leb_total : forall a b, leb a b = true \/ leb b a = true.

Let le a b := leb a b = true.

Lemma insert_sorted x l : Sorted le l -> Sorted le (insert leb x l).
Proof.
  induction l as [ | y l IH]; cbn [insert]; intros H.
  - repeat constructor.
  - destruct (leb x y) eqn:E.
    + constructor; [exact H | constructor; exact E].
    + inversion H as [ | ? ? Hs Hhd]; subst.
      constructor; [apply IH, Hs | ].
      assert (le y x) as Hyx by (destruct (leb_total x y); [congruence | assumption]).
      destruct l as [ | z l]; cbn [insert].
      * constructor; exact Hyx.
      * destruct (leb x z); constructor; [exact Hyx | ].
        inversion Hhd; assumption.
Qed.

Lemma dollar_sort_sorted l : Sorted le (dollar_sort leb l).
Proof.
  induction l as [ | x l IH]; cbn [dollar_sort fold_right].
  - constructor.
  - apply insert_sorted, IH.
Qed.

End SortFacts.

Lemma String_leb_trans a b c :
  String.leb a b = true -> String.leb b c = true -> String.leb a c = true.
Proof.
  unfold String.leb.
  destruct (String.compare a b) eqn:Eab; try discriminate;
    destruct (String.compare b c) eqn:Ebc; try discriminate; intros _ _.
  - apply String_as_OT.cmp_eq in Eab. subst. rewrite Ebc. reflexivity.
  - apply String_as_OT.cmp_eq in Eab. subst. rewrite Ebc. reflexivity.
  - apply String_as_OT.cmp_eq in Ebc. subst. rewrite Eab. reflexivity.
  - apply String_as_OT.cmp_lt in Eab, Ebc.
    pose proof (String_as_OT.lt_trans _ _ _ Eab Ebc) as L.
    apply String_as_OT.cmp_lt in L. unfold String_as_OT.cmp in L. rewrite L.
    reflexivity.
Qed.

Lemma String_leb_neq_ltb a b :
  String.leb a b = true -> a <> b -> String.ltb a b = true.
Proof.
  unfold String.leb, String.ltb.
  destruct (String.compare a b) eqn:E; try discriminate; intros _ N.
  - apply String_as_OT.cmp_eq in E. contradiction.
  - reflexivity.
Qed.

(** A list sorted by [leb] on its keys and without repeated keys is strictly
    ascending. *)
Lemma sorted_NoDup_strict {A} (key : A -> string) (l : list A) :
  Sorted (fun a b => String.leb (key a) (key b) = true) l ->
  NoDup (map key l) ->
  StronglySorted (fun a b => String.ltb (key a) (key b) = true) l.
Proof.
  intros S N. apply Sorted_StronglySorted in S.
  2:{ intros a b c. apply String_leb_trans. }
  induction S as [ | x l S IH F]; [constructor | ].
  cbn [map] in N. inversion N as [ | ? ? Hn Hr]; subst.
  constructor; [apply IH, Hr | ].
  rewrite Forall_forall in F |- *. intros y Hy.
  apply String_leb_neq_ltb; [apply F, Hy | ].
  intros E. apply Hn. rewrite E. apply in_map, Hy.
Qed.

(* --------------------------------------------------------------------- *)
(** ** Claims about the report *)
(* --------------------------------------------------------------------- *)

Lemma fault_free_le n m w : (n <= m)%nat -> fault_free m w -> fault_free n w.
Proof.
  unfold fault_free. generalize (faults w) as fs.
  revert m. induction n as [ | n IH]; intros m fs Hle H; [reflexivity | ].
  destruct m as [ | m]; [lia | ].
  destruct fs as [ | [e | ] fs]; cbn [first_fault] in *;
    [reflexivity | discriminate | ].
  apply (IH m); [lia | exact H].
Qed.



(** The three examples of the specification: no admissions before and
    none now, none before and seven now, ten before and fifteen now. *)
Example growth_examples :
  round_tenth (studentGrowth 0 0) =~ of_Z 0
  /\ round_tenth (studentGrowth 7 0) =~ of_Z 100
  /\ round_tenth (studentGrowth 15 10) =~ of_Z 50
  /\ round_tenth (admissionGrowth 15 10) =~ of_Z 50.
Proof. repeat split. Qed.

Lemma filter_staff (l : list User.t) :
  List.length (dollar_match staff_filter l) = number_of is_staff_dec l.
Proof.
  unfold number_of, dollar_match. f_equal. apply filter_ext. intros u.
  unfold staff_filter. destruct (is_staff_dec u) as [[Hr Ha] | Hn].
  - rewrite Ha. destruct Hr as [-> | ->]; reflexivity.
  - destruct (User.role u) eqn:Er, (User.isActive u) as [[ | ] | ] eqn:Ea;
      try reflexivity; exfalso; apply Hn; unfold is_staff; rewrite Er, Ea; auto.
Qed.

(** C2.  In both operations the reported staff count is the number of user
    documents whose role is teacher or admin and whose [isActive] field is
    [true]. *)
Theorem staff_count req w :
  authenticated req -> fault_free 13 w ->
  (exists r w',
      getDashboardOverview req w = (inr (mkResponse 200 (OverviewData r)), w')
      /\ Report.totalTeachers (Report.overview r)
         = number_of is_staff_dec (users w))
  /\ (exists q w',
         getQuickStats req w = (inr (mkResponse 200 (QuickStatsData q)), w')
         /\ QuickStats.totalTeachers q = number_of is_staff_dec (users w)).
Proof.
  intros Hid Hff. split.
  - exists (overview_report w), (sent_all overview_queries w).
    split; [apply getDashboardOverview_ok; assumption | ].
    apply filter_staff.
  - exists (quick_stats w), (sent_all quick_stats_queries w).
    split; [ | apply filter_staff].
    apply getQuickStats_ok; [assumption | ].
    apply (fault_free_le 3 13); [lia | assumption].
Qed.

Lemma staff_count_witness :
  (exists r w',
      getDashboardOverview sample_request sample_world
      = (inr (mkResponse 200 (OverviewData r)), w')
      /\ Report.totalTeachers (Report.overview r)
         = number_of is_staff_dec (users sample_world))
  /\ (exists q w',
         getQuickStats sample_request sample_world
         = (inr (mkResponse 200 (QuickStatsData q)), w')
         /\ QuickStats.totalTeachers q = number_of is_staff_dec (users sample_world)).
Proof.
  apply (staff_count sample_request sample_world); reflexivity.
Defined.

(** No document written through the schema has an [isActive] field: on a
    store of such documents the staff count is 0, whatever the roles. *)
Lemma staff_count_schema_conforming (l : list User.t) :
  Forall schema_conforming l -> List.length (dollar_match staff_filter l) = 0%nat.
Proof.
  induction 1 as [ | u l Hu _ IH]; [reflexivity | ].
  unfold dollar_match in *. cbn [filter]. unfold staff_filter at 1.
  rewrite Hu, andb_false_r. exact IH.
Qed.

(** C10.  For every pair of counts both growth figures, and the values
    reported for them, are finite numbers.  A division by a zero count would
    have produced a non-finite value, which the later steps of the
    computation keep non-finite: when the last-month count is 0 the figure is
    one of the two constants and no division is evaluated. *)
Theorem growth_never_divides_by_zero (this_month last_month : nat) :
  (is_finite (studentGrowth this_month last_month) = true
   /\ is_finite (round_tenth (studentGrowth this_month last_month)) = true)
  /\ (is_finite (admissionGrowth this_month last_month) = true
      /\ is_finite (round_tenth (admissionGrowth this_month last_month)) = true)
  /\ (studentGrowth this_month 0 = (if (0 <? this_month)%nat then of_Z 100 else of_Z 0)
      /\ admissionGrowth this_month 0
         = (if (0 <? this_month)%nat then of_Z 100 else of_Z 0))
  /\ (forall x, is_finite (x / of_nat 0)%js = false)
  /\ (forall x, is_finite x = false ->
                is_finite (round_tenth (x * of_Z 100)%js) = false).
Proof.
  split; [apply (growth_finite studentGrowth studentGrowth_eq) | ].
  split; [apply (growth_finite admissionGrowth admissionGrowth_eq) | ].
  split; [ | split; [exact div_by_zero_not_finite | exact not_finite_propagates]].
  rewrite studentGrowth_eq, admissionGrowth_eq. split; reflexivity.
Qed.

(** C7.  A request without caller identity is answered 401 by both
    operations, and the world is left as it was: the trace of queries has
    not grown. *)
Theorem unauthenticated_no_queries req w :
  no_identity req = true ->
  (exists resp w',
      getDashboardOverview req w = (inr resp, w')
      /\ status resp = 401%nat /\ success (body resp) = false
      /\ issued w' = issued w /\ w' = w)
  /\ (exists resp w',
         getQuickStats req w = (inr resp, w')
         /\ status resp = 401%nat /\ success (body resp) = false
         /\ issued w' = issued w /\ w' = w).
Proof.
  intros H. split.
  - eexists _, w. rewrite (getDashboardOverview_unauthenticated req w H).
    repeat split.
  - eexists _, w. rewrite (getQuickStats_unauthenticated req w H).
    repeat split.
Qed.

Lemma unauthenticated_no_queries_witness :
  (exists resp w',
      getDashboardOverview (mkRequest None) sample_world = (inr resp, w')
      /\ status resp = 401%nat /\ success (body resp) = false
      /\ issued w' = issued sample_world /\ w' = sample_world)
  /\ (exists resp w',
         getQuickStats (mkRequest None) sample_world = (inr resp, w')
         /\ status resp = 401%nat /\ success (body resp) = false
         /\ issued w' = issued sample_world /\ w' = sample_world).
Proof.
  apply (unauthenticated_no_queries (mkRequest None) sample_world). reflexivity.
Defined.




(** C8 fails on the code.  With the second query failing on "connection
    reset", the quick-stats operation answers 500 with its generic message
    and no error text, whatever the message, while the overview operation on
    the same world answers 500 with its generic message and "connection
    reset". *)
Theorem quick_stats_drops_error_text :
  authenticated sample_request
  /\ first_fault 3 (faults faulty_world) = Some (ErrorObject "connection reset")
  /\ fst (getQuickStats sample_request faulty_world)
     = inr (mkResponse 500 (Failure "Failed to fetch stats" None))
  /\ ~ (exists message,
          fst (getQuickStats sample_request faulty_world)
          = inr (mkResponse 500 (Failure message (Some "connection reset"))))
  /\ fst (getDashboardOverview sample_request faulty_world)
     = inr (mkResponse 500
              (Failure "Failed to fetch dashboard data" (Some "connection reset"))).
Proof.
  split; [reflexivity | ]. split; [reflexivity | ].
  assert (fst (getQuickStats sample_request faulty_world)
          = inr (mkResponse 500 (Failure "Failed to fetch stats" None))) as E
    by (vm_compute; reflexivity).
  split; [exact E | ]. split.
  - intros (message & H). rewrite E in H. discriminate H.
  - vm_compute. reflexivity.
Qed.





(** C4 fails on the code.  The upper bound of the previous-month window is
    the midnight that starts the last day of the previous month, one day
    before the start of the current month, not the last instant of the
    month.  On [last_day_world] the one active admission is dated in
    February 2024, the month before the clock's, at 10:00 of its last day:
    it lies past the bound, both last-month counts are 0, and the report
    shows a growth of 0 where one admission last month and none this month
    make -100. *)
Theorem previous_month_window_ends_at_midnight :
  (forall z now, endOfLastMonth z now = startOfMonth z now - Date.msPerDay)
  /\ endOfLastMonth 0 (clock last_day_world) = 1709164800000
  /\ startOfMonth 0 (clock last_day_world) = 1709251200000
  /\ (forall a, In a (admissions last_day_world) ->
        has_status Admission.active a
        /\ calendar_month 0 (Admission.admissionDate a)
           = calendar_month 0 (clock last_day_world) - 1
        /\ endOfLastMonth 0 (clock last_day_world) < Admission.admissionDate a
           < startOfMonth 0 (clock last_day_world))
  /\ studentsLastMonth last_day_world = 0%nat
  /\ newAdmissionsLastMonth last_day_world = 0%nat
  /\ (exists r,
        fst (getDashboardOverview sample_request last_day_world)
        = inr (mkResponse 200 (OverviewData r))
        /\ Report.studentGrowth (Report.growth r) =~ of_Z 0
        /\ Report.admissionGrowth (Report.growth r) =~ of_Z 0)
  /\ round_tenth (studentGrowth 0 1) =~ of_Z (-100).
Proof.
  split.
  - intros z now. unfold endOfLastMonth, startOfMonth, Date.new_Date, Date.UTC,
      Date.MakeDate, Date.MakeDay, Date.msPerDay.
    lia.
  - split; [vm_compute; reflexivity | ].
    split; [vm_compute; reflexivity | ].
    split.
    { intros a [<- | []]. vm_compute. repeat split; discriminate. }
    split; [vm_compute; reflexivity | ].
    split; [vm_compute; reflexivity | ].
    split; [ | vm_compute; reflexivity].
    exists (overview_report last_day_world).
    rewrite getDashboardOverview_ok by reflexivity.
    split; [reflexivity | ]. split; vm_compute; reflexivity.
Qed.

Lemma is_active_dec_eq (a : Admission.t) :
  is_active a
  = if Admission.Status_eq_dec (Admission.status a) Admission.active
    then true else false.
Proof.
  unfold is_active.
  destruct (Admission.Status_eq_dec (Admission.status a) Admission.active)
    as [-> | N]; [reflexivity | ].
  destruct (Admission.status a); try reflexivity. contradiction.
Qed.








Lemma is_active_true (a : Admission.t) :
  is_active a = true <-> has_status Admission.active a.
Proof.
  rewrite is_active_dec_eq. unfold has_status.
  destruct (Admission.Status_eq_dec (Admission.status a) Admission.active);
    split; intros; (assumption || reflexivity || discriminate || contradiction).
Qed.

Lemma distribution_pipeline_keys field docs :
  map Bucket._id
      (map (fun g : string * nat => Bucket.mk (fst g) (snd g))
           (dollar_group field String.eqb 0%nat (fun n _ => S n)
              (dollar_match is_active docs)))
  = map fst (dollar_group field String.eqb 0%nat (fun n _ => S n)
               (dollar_match is_active docs)).
Proof. rewrite map_map. apply map_ext. reflexivity. Qed.

Lemma distribution_pipeline_ok field w :
  distribution_of field w (distribution_pipeline field (admissions w)).
Proof.
  unfold distribution_of, distribution_pipeline.
  set (groups := dollar_group field String.eqb 0%nat (fun n _ => S n)
                   (dollar_match is_active (admissions w))).
  set (buckets := map (fun g : string * nat => Bucket.mk (fst g) (snd g)) groups).
  set (leb := fun a b => String.leb (Bucket._id a) (Bucket._id b)).
  assert (Permutation (map Bucket._id (dollar_sort leb buckets)) (map fst groups))
    as P.
  { rewrite (Permutation_map Bucket._id (dollar_sort_perm leb buckets)).
    subst buckets groups. rewrite distribution_pipeline_keys. reflexivity. }
  assert (Sorted (fun a b => leb a b = true) (dollar_sort leb buckets)) as Hs.
  { apply dollar_sort_sorted. intros a b. apply String.leb_total. }
  assert (NoDup (map Bucket._id (dollar_sort leb buckets))) as N.
  { apply (Permutation_NoDup (Permutation_sym P)).
    apply dollar_group_NoDup. apply String.eqb_eq. }
  split; [exact Hs | ]. split; [exact N | ].
  split; [apply sorted_NoDup_strict; assumption | ].
  intros k. split.
  - intros H. apply (Permutation_in _ P) in H.
    apply (dollar_group_keys field String.eqb 0%nat (fun n _ => S n) String.eqb_eq) in H.
    destruct H as (a & Hin & Hk). apply filter_In in Hin. destruct Hin as [Hin Ha].
    exists a. split; [exact Hin | ]. split; [apply is_active_true, Ha | exact Hk].
  - intros (a & Hin & Ha & Hk). apply (Permutation_in _ (Permutation_sym P)).
    apply (dollar_group_keys field String.eqb 0%nat (fun n _ => S n) String.eqb_eq).
    exists a. split; [ | exact Hk]. apply filter_In.
    split; [exact Hin | apply is_active_true, Ha].
Qed.

(** C6.  Each of the two distribution lists of the report is sorted
    ascending by its key, has no key twice, and its keys are exactly the
    values of the grouping field among the active admissions. *)
Theorem distribution_lists req w :
  authenticated req -> fault_free 13 w ->
  exists r w',
    getDashboardOverview req w = (inr (mkResponse 200 (OverviewData r)), w')
    /\ distribution_of Admission.class w (Report.byClass (Report.distribution r))
    /\ distribution_of Admission.batch w (Report.byBatch (Report.distribution r)).
Proof.
  intros Hid Hff.
  exists (overview_report w), (sent_all overview_queries w).
  split; [apply getDashboardOverview_ok; assumption | ].
  split; apply distribution_pipeline_ok.
Qed.

Lemma distribution_lists_witness :
  exists r w',
    getDashboardOverview sample_request sample_world
    = (inr (mkResponse 200 (OverviewData r)), w')
    /\ distribution_of Admission.class sample_world
         (Report.byClass (Report.distribution r))
    /\ distribution_of Admission.batch sample_world
         (Report.byBatch (Report.distribution r)).
Proof.
  apply (distribution_lists sample_request sample_world); reflexivity.
Defined.

Lemma YearMonth_eqb_eq (a b : Trend.YearMonth) :
  YearMonth_eqb a b = true <-> a = b.
Proof.
  destruct a as [ya ma], b as [yb mb]. unfold YearMonth_eqb.
  cbn [Trend.year Trend.month].
  rewrite andb_true_iff, !Z.eqb_eq. split.
  - intros [-> ->]. reflexivity.
  - intros [= -> ->]. split; reflexivity.
Qed.

Lemma fill_trends_entries z now raw :
  fill_trends z now raw
  = map (trend_entry z now raw) [5; 4; 3; 2; 1; 0].
Proof. reflexivity. Qed.








(* --------------------------------------------------------------------- *)
(** ** Further properties of the report *)
(* --------------------------------------------------------------------- *)

(** X1.  On a store whose user documents all lack the [isActive] field, as the
    documents written through the schema of [modal/user.ts] do, the staff
    count of both operations is 0. *)
Theorem staff_count_without_isActive req w :
  authenticated req -> fault_free 13 w ->
  Forall schema_conforming (users w) ->
  (exists r w',
      getDashboardOverview req w = (inr (mkResponse 200 (OverviewData r)), w')
      /\ Report.totalTeachers (Report.overview r) = 0%nat)
  /\ (exists q w',
         getQuickStats req w = (inr (mkResponse 200 (QuickStatsData q)), w')
         /\ QuickStats.totalTeachers q = 0%nat).
Proof.
  intros Hid Hff Hs. split.
  - exists (overview_report w), (sent_all overview_queries w).
    split; [apply getDashboardOverview_ok; assumption | ].
    apply staff_count_schema_conforming, Hs.
  - exists (quick_stats w), (sent_all quick_stats_queries w).
    split; [ | apply staff_count_schema_conforming, Hs].
    apply getQuickStats_ok; [assumption | ].
    apply (fault_free_le 3 13); [lia | assumption].
Qed.

Lemma staff_count_without_isActive_witness :
  (exists r w',
      getDashboardOverview sample_request schema_world
      = (inr (mkResponse 200 (OverviewData r)), w')
      /\ Report.totalTeachers (Report.overview r) = 0%nat)
  /\ (exists q w',
         getQuickStats sample_request schema_world
         = (inr (mkResponse 200 (QuickStatsData q)), w')
         /\ QuickStats.totalTeachers q = 0%nat).
Proof.
  apply (staff_count_without_isActive sample_request schema_world);
    [reflexivity | reflexivity | ].
  repeat constructor.
Defined.

Lemma firstn_In {A} n (l : list A) x : In x (firstn n l) -> In x l.
Proof.
  revert n. induction l as [ | y l IH]; intros [ | n]; cbn [firstn In];
    try tauto.
  intros [-> | H]; [left; reflexivity | right; apply (IH n), H].
Qed.

Section Prefix.

Context {A : Type}.
Variable R : A -> A -> Prop.

Lemma StronglySorted_firstn n (l : list A) :
  StronglySorted R l -> StronglySorted R (firstn n l).
Proof.
  intros H. revert n. induction H as [ | x l _ IH F]; intros [ | n];
    cbn [firstn]; try constructor.
  - apply IH.
  - rewrite Forall_forall in F |- *. intros y Hy. apply F, (firstn_In n), Hy.
Qed.

Lemma StronglySorted_split n (l : list A) x y :
  StronglySorted R l -> In x (firstn n l) -> In y (skipn n l) -> R x y.
Proof.
  intros H. revert n. induction H as [ | z l _ IH F]; intros [ | n];
    cbn [firstn skipn In]; try tauto.
  intros [-> | Hx] Hy.
  - rewrite Forall_forall in F. apply F.
    rewrite <- (firstn_skipn n l). apply in_or_app. right. exact Hy.
  - apply (IH n); assumption.
Qed.

End Prefix.

Lemma recent_admissions_list (w : World) :
  recent_list w (Report.recentAdmissions (overview_report w)).
Proof.
  unfold recent_list, overview_report. cbn [Report.recentAdmissions].
  set (leb := fun a b => Admission.admissionDate b <=? Admission.admissionDate a).
  set (sorted := dollar_sort leb (admissions w)).
  assert (StronglySorted
            (fun a b => Admission.admissionDate b <= Admission.admissionDate a)
            sorted) as Hs.
  { apply Sorted_StronglySorted; [intros a b c; lia | ].
    assert (Sorted (fun a b => leb a b = true) sorted) as H.
    { apply dollar_sort_sorted. intros a b. subst leb. cbv beta. lia. }
    clear -H. induction H as [ | a l _ IH Hd]; constructor; [exact IH | ].
    destruct Hd as [ | b l Hab]; constructor. subst leb. cbv beta in Hab. lia. }
  split.
  { rewrite length_map, length_firstn. subst sorted.
    rewrite (Permutation_length (dollar_sort_perm leb (admissions w))).
    reflexivity. }
  split.
  { apply (StronglySorted_firstn _ 5) in Hs.
    induction Hs as [ | a l _ IH F]; cbn [map]; constructor; [exact IH | ].
    rewrite Forall_forall in F |- *. intros e He.
    apply in_map_iff in He. destruct He as (b & <- & Hb). apply F, Hb. }
  exists (map select_recent (skipn 5 sorted)). split.
  { rewrite <- map_app, firstn_skipn. apply Permutation_map.
    symmetry. apply dollar_sort_perm. }
  intros e x He Hx.
  apply in_map_iff in He. destruct He as (b & <- & Hb).
  apply in_map_iff in Hx. destruct Hx as (a & <- & Ha).
  cbn [select_recent Recent.admissionDate].
  apply (StronglySorted_split _ 5 sorted b a Hs Hb Ha).
Qed.

(** X2.  The recent-admissions list of the report has at most five entries,
    ordered by admission date, latest first; they are the five latest
    admissions of the store. *)
Theorem recent_admissions req w :
  authenticated req -> fault_free 13 w ->
  exists r w',
    getDashboardOverview req w = (inr (mkResponse 200 (OverviewData r)), w')
    /\ recent_list w (Report.recentAdmissions r).
Proof.
  intros Hid Hff.
  exists (overview_report w), (sent_all overview_queries w).
  split; [apply getDashboardOverview_ok; assumption | ].
  apply recent_admissions_list.
Qed.

Lemma recent_admissions_witness :
  exists r w',
    getDashboardOverview sample_request sample_world
    = (inr (mkResponse 200 (OverviewData r)), w')
    /\ recent_list sample_world (Report.recentAdmissions r).
Proof.
  apply (recent_admissions sample_request sample_world); reflexivity.
Defined.

(* --------------------------------------------------------------------- *)
(** ** The figures of the distributions and of the trend *)
(* --------------------------------------------------------------------- *)

Section GroupValues.

Context {D K V : Type}.
Variable key : D -> K.
Variable key_eqb : K -> K -> bool.
Variable init : V.
Variable step : V -> D -> V.
Hypothesis key_eqb_eq : forall a b, key_eqb a b = true <-> a = b.

Let up := upsert key key_eqb init step.
Let tally := tally key key_eqb step.

Lemma key_eqb_refl k : key_eqb k k = true.
Proof. apply key_eqb_eq. reflexivity. Qed.

Lemma key_eqb_neq a b : a <> b -> key_eqb a b = false.
Proof.
  intros N. destruct (key_eqb a b) eqn:E; [ | reflexivity].
  apply key_eqb_eq in E. contradiction.
Qed.

Lemma upsert_In d groups k v :
  NoDup (map fst groups) ->
  In (k, v) (up d groups) ->
  (k <> key d /\ In (k, v) groups)
  \/ (k = key d
      /\ ((exists v0, In (k, v0) groups /\ v = step v0 d)
          \/ (~ In k (map fst groups) /\ v = step init d))).
Proof.
  induction groups as [ | [k' v'] rest IH]; cbn [up upsert In map fst]; intros N.
  - intros [[= E1 E2] | []]. subst k v.
    right. split; [reflexivity | ]. right. tauto.
  - inversion N as [ | ? ? Hn Hr]; subst.
    destruct (key_eqb k' (key d)) eqn:E; cbn [In].
    + apply key_eqb_eq in E. subst k'.
      intros [[= E1 E2] | H].
      * subst k v. right. split; [reflexivity | ]. left. exists v'. tauto.
      * left. split; [ | tauto]. intros ->.
        apply Hn. apply (in_map fst) in H. exact H.
    + fold up. intros [[= E1 E2] | H].
      * subst k' v'. left. split; [ | tauto].
        intros ->. rewrite key_eqb_refl in E. discriminate.
      * destruct (IH Hr H) as [[Nk Hin] | [-> [(v0 & Hin & ->) | [Hnin ->]]]].
        -- left. tauto.
        -- right. split; [reflexivity | ]. left. exists v0. tauto.
        -- right. split; [reflexivity | ]. right. split; [ | reflexivity].
           intros [E' | Hin]; [ | contradiction].
           rewrite E', key_eqb_refl in E. discriminate.
Qed.

Lemma tally_cons k d docs v :
  tally k (d :: docs) v
  = tally k docs (if key_eqb k (key d) then step v d else v).
Proof. reflexivity. Qed.

Lemma group_from_value docs groups k v :
  NoDup (map fst groups) ->
  In (k, v) (fold_left (fun g d => up d g) docs groups) ->
  (exists v0, In (k, v0) groups /\ v = tally k docs v0)
  \/ (~ In k (map fst groups) /\ v = tally k docs init).
Proof.
  revert groups. induction docs as [ | d docs IH]; intros groups N; cbn [fold_left].
  - intros H. left. exists v. split; [exact H | reflexivity].
  - intros H.
    pose proof (upsert_NoDup key key_eqb init step key_eqb_eq d groups N) as N'.
    destruct (IH (up d groups) N' H) as [(v0 & Hin & ->) | [Hnin ->]].
    + destruct (upsert_In d groups k v0 N Hin)
        as [[Nk Hg] | [-> [(v1 & Hg & ->) | [Hn ->]]]].
      * left. exists v0. rewrite tally_cons, (key_eqb_neq _ _ Nk). tauto.
      * left. exists v1. rewrite tally_cons, key_eqb_refl. tauto.
      * right. rewrite tally_cons, key_eqb_refl. tauto.
    + right. unfold up in Hnin.
      rewrite (upsert_keys key key_eqb init step key_eqb_eq) in Hnin.
      assert (k <> key d) as Nk by tauto.
      rewrite tally_cons, (key_eqb_neq _ _ Nk). tauto.
Qed.

Lemma dollar_group_value docs k v :
  In (k, v) (dollar_group key key_eqb init step docs) -> v = tally k docs init.
Proof.
  intros H. apply group_from_value in H; [ | constructor].
  destruct H as [(v0 & [] & _) | [_ H]]. exact H.
Qed.

End GroupValues.

Lemma tally_step {D K V} (key : D -> K) key_eqb (step : V -> D -> V) k d docs v :
  tally key key_eqb step k (d :: docs) v
  = tally key key_eqb step k docs (if key_eqb k (key d) then step v d else v).
Proof. reflexivity. Qed.

Lemma tally_count {D K} (key : D -> K) (key_eqb : K -> K -> bool) k docs n :
  tally key key_eqb (fun (n : nat) (_ : D) => S n) k docs n
  = (n + List.length (filter (fun d => key_eqb k (key d)) docs))%nat.
Proof.
  revert n. induction docs as [ | d docs IH]; intros n.
  - cbn. lia.
  - rewrite tally_step, IH. cbn [filter].
    destruct (key_eqb k (key d)); cbn [List.length]; lia.
Qed.

Lemma tally_count_sum {K} (key : Admission.t -> K) (key_eqb : K -> K -> bool)
  k docs (v : nat * Q) :
  let r := tally key key_eqb
             (fun v d => (S (fst v), (snd v + Admission.monthlyFee d)%Q))
             k docs v in
  fst r = (fst v + List.length (filter (fun d => key_eqb k (key d)) docs))%nat
  /\ (snd r == snd v + total (map Admission.monthlyFee
                                 (filter (fun d => key_eqb k (key d)) docs)))%Q.
Proof.
  revert v. induction docs as [ | d docs IH]; intros v; cbv zeta.
  - unfold tally. cbn [fold_left filter map total fold_right List.length].
    split; [lia | symmetry; apply Qplus_0_r].
  - rewrite tally_step.
    destruct (IH (if key_eqb k (key d)
                  then (S (fst v), (snd v + Admission.monthlyFee d)%Q) else v))
      as [Hc Hs].
    rewrite Hc, Hs. cbn [filter].
    destruct (key_eqb k (key d)); cbn [fst snd List.length map total fold_right];
      (split; [lia | ]).
    + fold (total (map Admission.monthlyFee
                     (filter (fun d => key_eqb k (key d)) docs))).
      symmetry. apply Qplus_assoc.
    + reflexivity.
Qed.

Lemma filter_filter {A} (p q : A -> bool) (l : list A) :
  filter p (filter q l) = filter (fun a => q a && p a) l.
Proof.
  induction l as [ | a l IH]; [reflexivity | ].
  cbn [filter]. destruct (q a); cbn [filter andb]; rewrite IH; reflexivity.
Qed.

Lemma distribution_pipeline_counts field w :
  distribution_counts field w (distribution_pipeline field (admissions w)).
Proof.
  unfold distribution_counts, distribution_pipeline. intros b Hb.
  apply dollar_sort_In, in_map_iff in Hb. destruct Hb as ([k n] & <- & Hg).
  cbn [fst snd Bucket._id Bucket.count].
  apply (dollar_group_value field String.eqb 0%nat _ String.eqb_eq) in Hg.
  rewrite Hg, tally_count. cbn [Nat.add]. unfold number_of, dollar_match.
  rewrite filter_filter. f_equal. apply filter_ext. intros a.
  destruct (in_bucket_dec field k a) as [[Ha Hk] | N].
  - apply is_active_true in Ha. rewrite Ha, Hk, String.eqb_refl. reflexivity.
  - destruct (is_active a) eqn:Ea; [ | reflexivity]. cbn [andb].
    destruct (String.eqb_spec k (field a)) as [E | E]; [ | reflexivity].
    exfalso. apply N. split; [apply is_active_true, Ea | symmetry; exact E].
Qed.

Lemma or_of_nat (n : nat) : (of_nat n || of_Z 0)%js = of_nat n.
Proof. destruct n; reflexivity. Qed.

Lemma or_Fin (q : Q) : (Fin q || of_Z 0)%js =~ Fin q.
Proof.
  unfold JS.or, truthy. destruct (Qeq_bool q 0) eqn:E; cbn [negb numeq of_Z].
  - apply Qeq_bool_iff in E. symmetry. exact E.
  - reflexivity.
Qed.

Lemma trend_pipeline_item since docs item :
  In item (trend_pipeline since docs) ->
  let hits := filter (fun a => YearMonth_eqb (Trend._id item) (trend_key a))
                     (filter (date_gte since) docs) in
  Trend.count item = of_nat (List.length hits)
  /\ Trend.revenue item =~ Fin (total (map Admission.monthlyFee hits)).
Proof.
  unfold trend_pipeline. intros H.
  apply dollar_sort_In, in_map_iff in H. destruct H as ([k [n q]] & <- & Hg).
  cbn [fst snd Trend._id Trend.count Trend.revenue].
  apply (dollar_group_value trend_key YearMonth_eqb (0%nat, 0%Q) _ YearMonth_eqb_eq)
    in Hg.
  destruct (tally_count_sum trend_key YearMonth_eqb k
              (dollar_match (date_gte since) docs) (0%nat, 0%Q)) as [Hc Hs].
  cbv zeta in Hc, Hs. rewrite <- Hg in Hc, Hs. cbn [fst snd] in Hc, Hs.
  unfold dollar_match in *. split.
  - rewrite Hc. reflexivity.
  - cbn [numeq]. rewrite Hs. apply Qplus_0_l.
Qed.

Lemma trend_pipeline_complete since docs a :
  In a docs -> date_gte since a = true ->
  exists item, In item (trend_pipeline since docs)
               /\ Trend._id item = trend_key a.
Proof.
  intros Hin Hd.
  assert (In (trend_key a)
             (map fst (dollar_group trend_key YearMonth_eqb (0%nat, 0%Q)
                         (fun v d => (S (fst v), (snd v + Admission.monthlyFee d)%Q))
                         (dollar_match (date_gte since) docs)))) as Hk.
  { apply (dollar_group_keys trend_key YearMonth_eqb _ _ YearMonth_eqb_eq).
    exists a. split; [apply filter_In; split; assumption | reflexivity]. }
  apply in_map_iff in Hk. destruct Hk as (g & Eg & Hg).
  exists (Trend.mk (fst g) (of_nat (fst (snd g))) (Fin (snd (snd g)))).
  split; [ | exact Eg].
  unfold trend_pipeline. apply dollar_sort_In.
  apply (in_map (fun g : Trend.YearMonth * (nat * Q) =>
                   Trend.mk (fst g) (of_nat (fst (snd g))) (Fin (snd (snd g))))).
  exact Hg.
Qed.


Lemma lookup_figures since docs (year month : Z) :
  let existingData :=
    find (fun item =>
            (Trend.year (Trend._id item) =? year)
            && (Trend.month (Trend._id item) =? month))
         (trend_pipeline since docs) in
  let hits :=
    filter (fun a => YearMonth_eqb (Trend.mkYearMonth year month) (trend_key a))
           (filter (date_gte since) docs) in
  field_or_zero existingData Trend.count = of_nat (List.length hits)
  /\ field_or_zero existingData Trend.revenue
     =~ Fin (total (map Admission.monthlyFee hits)).
Proof.
  cbv zeta. set (target := Trend.mkYearMonth year month).
  set (p := fun item : Trend.t => _).
  assert (forall item, p item = YearMonth_eqb (Trend._id item) target) as Hp
    by reflexivity.
  destruct (find p (trend_pipeline since docs)) as [item | ] eqn:F.
  - apply find_some in F. destruct F as [Hin Hi]. rewrite Hp in Hi.
    apply YearMonth_eqb_eq in Hi.
    destruct (trend_pipeline_item _ _ _ Hin) as [Hc Hr]. rewrite Hi in Hc, Hr.
    cbn [field_or_zero]. rewrite Hc, or_of_nat. split; [reflexivity | ].
    destruct (Trend.revenue item) as [q | | | ] eqn:Er; cbn [numeq] in Hr;
      try contradiction.
    pose proof (or_Fin q) as Ho.
    destruct (Fin q || of_Z 0)%js as [q' | | | ]; cbn [numeq] in Ho |- *;
      try contradiction.
    rewrite Ho. exact Hr.
  - cbn [field_or_zero].
    assert (filter (fun a => YearMonth_eqb target (trend_key a))
                   (filter (date_gte since) docs) = []) as E.
    { destruct (filter _ (filter _ _)) as [ | a l] eqn:E; [reflexivity | exfalso].
      assert (In a (a :: l)) as Ha by (left; reflexivity).
      rewrite <- E in Ha. apply filter_In in Ha. destruct Ha as [Ha Hk].
      apply filter_In in Ha. destruct Ha as [Ha Hd].
      destruct (trend_pipeline_complete since _ a Ha Hd) as (item & Hin & Hid).
      apply (find_none _ _ F) in Hin. rewrite Hp in Hin.
      apply YearMonth_eqb_eq in Hk. rewrite Hid, <- Hk in Hin.
      rewrite (proj2 (YearMonth_eqb_eq target target) eq_refl) in Hin.
      discriminate. }
    rewrite E. split; reflexivity.
Qed.

Lemma trend_entry_figures w i :
  let e := trend_entry (tza w) (clock w) (monthlyTrendsRaw w) i in
  Trend.count e = of_nat (List.length (admitted_in w (Trend._id e)))
  /\ Trend.revenue e
     =~ Fin (total (map Admission.monthlyFee (admitted_in w (Trend._id e)))).
Proof.
  unfold trend_entry, monthlyTrendsRaw, admitted_in, trend_start.
  cbv zeta.
  set (year := Date.getFullYear (tza w) (Date.new_Date _ _ _ 1)).
  set (month := Date.getMonth (tza w) _ + 1).
  clearbody year month.
  set (since := Date.new_Date _ _ _ 1). clearbody since.
  cbn [Trend._id Trend.count Trend.revenue].
  exact (lookup_figures since (admissions w) year month).
Qed.

(** X3.  The count of each entry of a distribution list is the number of active
    admissions whose grouping field is the entry's key. *)
Theorem distribution_list_counts req w :
  authenticated req -> fault_free 13 w ->
  exists r w',
    getDashboardOverview req w = (inr (mkResponse 200 (OverviewData r)), w')
    /\ distribution_counts Admission.class w
         (Report.byClass (Report.distribution r))
    /\ distribution_counts Admission.batch w
         (Report.byBatch (Report.distribution r)).
Proof.
  intros Hid Hff.
  exists (overview_report w), (sent_all overview_queries w).
  split; [apply getDashboardOverview_ok; assumption | ].
  split; apply distribution_pipeline_counts.
Qed.

Lemma distribution_list_counts_witness :
  exists r w',
    getDashboardOverview sample_request sample_world
    = (inr (mkResponse 200 (OverviewData r)), w')
    /\ distribution_counts Admission.class sample_world
         (Report.byClass (Report.distribution r))
    /\ distribution_counts Admission.batch sample_world
         (Report.byBatch (Report.distribution r)).
Proof.
  apply (distribution_list_counts sample_request sample_world); reflexivity.
Defined.



(** X6.  The months of the trend entries are months of the server's local
    time, the admissions are grouped by their month in UTC.  On a server six
    hours ahead of UTC an admission of the small hours of 1 March local time
    is a new admission of this month, and is counted in the trend entry of
    February, the entry of March staying at 0. *)
Theorem trend_months_read_in_utc :
  (forall a, In a (admissions ahead_of_utc_world) ->
     calendar_month (tza ahead_of_utc_world) (Admission.admissionDate a)
     = calendar_month (tza ahead_of_utc_world) (clock ahead_of_utc_world)
     /\ trend_key a = Trend.mkYearMonth 2024 2)
  /\ exists r,
       fst (getDashboardOverview sample_request ahead_of_utc_world)
       = inr (mkResponse 200 (OverviewData r))
       /\ Report.newAdmissionsThisMonth (Report.overview r) = 1%nat
       /\ map (fun e => (Trend._id e, Trend.count e)) (Report.monthlyTrends r)
          = [ (Trend.mkYearMonth 2023 10, of_Z 0);
              (Trend.mkYearMonth 2023 11, of_Z 0);
              (Trend.mkYearMonth 2023 12, of_Z 0);
              (Trend.mkYearMonth 2024 1, of_Z 0);
              (Trend.mkYearMonth 2024 2, of_Z 1);
              (Trend.mkYearMonth 2024 3, of_Z 0) ].
Proof.
  split.
  - intros a [<- | []]. split; vm_compute; reflexivity.
  - exists (overview_report ahead_of_utc_world).
    rewrite getDashboardOverview_ok by reflexivity.
    split; [reflexivity | ]. split; vm_compute; reflexivity.
Qed.

(* --------------------------------------------------------------------- *)
(** ** The two operations side by side *)
(* --------------------------------------------------------------------- *)

(** X7.  On the same world the figures of the quick-stats operation are
    those of the overview: the active total, the pending total and the staff
    count agree. *)
Theorem quick_stats_agree_with_overview req w :
  authenticated req -> fault_free 13 w ->
  exists r q w1 w2,
    getDashboardOverview req w = (inr (mkResponse 200 (OverviewData r)), w1)
    /\ getQuickStats req w = (inr (mkResponse 200 (QuickStatsData q)), w2)
    /\ QuickStats.totalActive q = Report.totalStudents (Report.overview r)
    /\ QuickStats.totalPending q = Report.pendingAdmissions (Report.overview r)
    /\ QuickStats.totalTeachers q = Report.totalTeachers (Report.overview r).
Proof.
  intros Hid Hff.
  exists (overview_report w), (quick_stats w),
    (sent_all overview_queries w), (sent_all quick_stats_queries w).
  split; [apply getDashboardOverview_ok; assumption | ].
  split; [ | repeat split].
  apply getQuickStats_ok; [assumption | ].
  apply (fault_free_le 3 13); [lia | assumption].
Qed.

Lemma quick_stats_agree_with_overview_witness :
  exists r q w1 w2,
    getDashboardOverview sample_request sample_world
    = (inr (mkResponse 200 (OverviewData r)), w1)
    /\ getQuickStats sample_request sample_world
       = (inr (mkResponse 200 (QuickStatsData q)), w2)
    /\ QuickStats.totalActive q = Report.totalStudents (Report.overview r)
    /\ QuickStats.totalPending q = Report.pendingAdmissions (Report.overview r)
    /\ QuickStats.totalTeachers q = Report.totalTeachers (Report.overview r).
Proof.
  apply (quick_stats_agree_with_overview sample_request sample_world);
    reflexivity.
Defined.

Lemma status_counts (l : list Admission.t) :
  (List.length (filter is_active l) + List.length (filter is_pending l)
   + List.length (filter is_inactive l))%nat = List.length l.
Proof.
  induction l as [ | a l IH]; [reflexivity | ].
  cbn [filter]. unfold is_active at 1, is_pending at 1, is_inactive at 1.
  destruct (Admission.status a); cbn [Admission.Status_eqb existsb orb List.length];
    lia.
Qed.

(** X8.  Every admission is counted in exactly one of the three status
    figures of the overview: active, pending, and inactive or completed add up
    to the number of admissions in the store. *)
Theorem status_figures_partition req w :
  authenticated req -> fault_free 13 w ->
  exists r w',
    getDashboardOverview req w = (inr (mkResponse 200 (OverviewData r)), w')
    /\ (Report.totalStudents (Report.overview r)
        + Report.pendingAdmissions (Report.overview r)
        + Report.inactiveStudents (Report.overview r))%nat
       = List.length (admissions w).
Proof.
  intros Hid Hff.
  exists (overview_report w), (sent_all overview_queries w).
  split; [apply getDashboardOverview_ok; assumption | ].
  apply status_counts.
Qed.

Lemma status_figures_partition_witness :
  exists r w',
    getDashboardOverview sample_request sample_world
    = (inr (mkResponse 200 (OverviewData r)), w')
    /\ (Report.totalStudents (Report.overview r)
        + Report.pendingAdmissions (Report.overview r)
        + Report.inactiveStudents (Report.overview r))%nat
       = List.length (admissions sample_world).
Proof.
  apply (status_figures_partition sample_request sample_world); reflexivity.
Defined.

Section GroupTotals.

Context {D K : Type}.
Variable key : D -> K.
Variable key_eqb : K -> K -> bool.

Let total_of (groups : list (K * nat)) : nat :=
  fold_right (fun g n => (snd g + n)%nat) 0%nat groups.

Lemma upsert_total d groups :
  total_of (upsert key key_eqb 0%nat (fun n _ => S n) d groups)
  = S (total_of groups).
Proof.
  induction groups as [ | [k n] rest IH]; cbn [upsert]; [reflexivity | ].
  destruct (key_eqb k (key d)); cbn [total_of fold_right snd].
  - reflexivity.
  - fold (total_of (upsert key key_eqb 0%nat (fun n _ => S n) d rest)).
    fold (total_of rest). rewrite IH. lia.
Qed.

Lemma group_from_total docs groups :
  total_of (fold_left (fun g d => upsert key key_eqb 0%nat (fun n _ => S n) d g)
                      docs groups)
  = (List.length docs + total_of groups)%nat.
Proof.
  revert groups. induction docs as [ | d docs IH]; intros groups;
    cbn [fold_left List.length]; [reflexivity | ].
  rewrite IH, upsert_total. lia.
Qed.

Lemma dollar_group_total docs :
  total_of (dollar_group key key_eqb 0%nat (fun n _ => S n) docs)
  = List.length docs.
Proof. unfold dollar_group. rewrite group_from_total. cbn. lia. Qed.

End GroupTotals.

Lemma bucket_total_perm (l l' : list Bucket.t) :
  Permutation l l' -> bucket_total l = bucket_total l'.
Proof.
  induction 1 as [ | b l l' _ IH | a b l | l1 l2 l3 _ IH1 _ IH2];
    cbn [bucket_total fold_right] in *.
  - reflexivity.
  - fold (bucket_total l). fold (bucket_total l'). rewrite IH. reflexivity.
  - lia.
  - congruence.
Qed.

Lemma distribution_pipeline_total field docs :
  bucket_total (distribution_pipeline field docs)
  = List.length (dollar_match is_active docs).
Proof.
  unfold distribution_pipeline.
  rewrite (bucket_total_perm _ _ (dollar_sort_perm _ _)).
  rewrite <- (dollar_group_total field String.eqb (dollar_match is_active docs)).
  generalize (dollar_group field String.eqb 0%nat (fun n (_ : Admission.t) => S n)
                (dollar_match is_active docs)) as groups.
  induction groups as [ | g groups IH]; cbn [map bucket_total fold_right];
    [reflexivity | ].
  fold (bucket_total (map (fun g : string * nat => Bucket.mk (fst g) (snd g)) groups)).
  rewrite IH. reflexivity.
Qed.

(** X9.  The counts of each distribution list add up to the number of
    active students the overview reports: every active admission is in
    exactly one class entry and in exactly one batch entry. *)
Theorem distribution_totals req w :
  authenticated req -> fault_free 13 w ->
  exists r w',
    getDashboardOverview req w = (inr (mkResponse 200 (OverviewData r)), w')
    /\ bucket_total (Report.byClass (Report.distribution r))
       = Report.totalStudents (Report.overview r)
    /\ bucket_total (Report.byBatch (Report.distribution r))
       = Report.totalStudents (Report.overview r).
Proof.
  intros Hid Hff.
  exists (overview_report w), (sent_all overview_queries w).
  split; [apply getDashboardOverview_ok; assumption | ].
  split; apply distribution_pipeline_total.
Qed.

Lemma distribution_totals_witness :
  exists r w',
    getDashboardOverview sample_request sample_world
    = (inr (mkResponse 200 (OverviewData r)), w')
    /\ bucket_total (Report.byClass (Report.distribution r))
       = Report.totalStudents (Report.overview r)
    /\ bucket_total (Report.byBatch (Report.distribution r))
       = Report.totalStudents (Report.overview r).
Proof.
  apply (distribution_totals sample_request sample_world); reflexivity.
Defined.

(* --------------------------------------------------------------------- *)
(** ** Every run, by its outcome *)
(* --------------------------------------------------------------------- *)

Lemma queries_sent_fault_free n fs :
  first_fault n fs = None -> queries_sent n fs = n.
Proof.
  revert fs. induction n as [ | n IH]; intros fs H; [reflexivity | ].
  destruct fs as [ | [e | ] fs]; cbn [first_fault queries_sent] in *;
    [reflexivity | discriminate | ].
  rewrite (IH fs H). reflexivity.
Qed.

Lemma queries_sent_le n fs : (queries_sent n fs <= n)%nat.
Proof.
  revert fs. induction n as [ | n IH]; intros fs; [reflexivity | ].
  destruct fs as [ | [e | ] fs]; cbn [queries_sent]; try lia.
  specialize (IH fs). lia.
Qed.

Lemma bind_query_sent {A B} n c (answer : World -> A) (k : A -> M B) w e :
  first_fault (S n) (faults w) = Some e ->
  (bind (query c answer) k w = (inl e, sent c w)
   /\ queries_sent (S n) (faults w) = 1%nat)
  \/ (bind (query c answer) k w = k (answer w) (sent c w)
      /\ first_fault n (faults (sent c w)) = Some e
      /\ queries_sent (S n) (faults w)
         = S (queries_sent n (faults (sent c w)))).
Proof.
  unfold bind, query. cbn [sent faults].
  destruct (faults w) as [ | [e' | ] fs]; cbn [first_fault queries_sent tl].
  - discriminate.
  - intros [= ->]. left. split; reflexivity.
  - intros H. right. repeat split. exact H.
Qed.

(** One query of a failing run, the number of queries sent kept exact. *)
Ltac run_query_sent H :=
  lazymatch goal with
  | |- context [bind (query ?c ?a) ?f ?w] =>
      lazymatch type of H with
      | first_fault (S ?n) (faults w) = Some ?e =>
          let Q := fresh "Q" in
          let H' := fresh "H" in
          destruct (bind_query_sent n c a f w e H) as [[-> Q] | (-> & H' & Q)];
          rewrite Q; clear Q;
          [ reflexivity | clear H; rename H' into H ]
      end
  end.

Lemma getDashboardOverview_failed req w e :
  no_identity req = false ->
  first_fault 13 (faults w) = Some e ->
  getDashboardOverview req w
  = (inr (mkResponse 500
            (Failure "Failed to fetch dashboard data" (Some (error_text e)))),
     logged "Error fetching dashboard overview:" e
            (sent_all (firstn (queries_sent 13 (faults w)) overview_queries) w)).
Proof.
  intros Hid H. unfold getDashboardOverview, try_catch. rewrite Hid.
  rewrite bind_Date_now, bind_zone. cbv zeta. unfold_store_calls.
  do 13 run_query_sent H.
  discriminate H.
Qed.

Lemma getQuickStats_failed req w e :
  no_identity req = false ->
  first_fault 3 (faults w) = Some e ->
  getQuickStats req w
  = (inr (mkResponse 500 (Failure "Failed to fetch stats" None)),
     logged "Error fetching quick stats:" e
            (sent_all (firstn (queries_sent 3 (faults w)) quick_stats_queries) w)).
Proof.
  intros Hid H. unfold getQuickStats, try_catch. rewrite Hid.
  unfold_store_calls.
  do 3 run_query_sent H.
  discriminate H.
Qed.

Lemma issued_sent_all cs w : issued (sent_all cs w) = issued w ++ cs.
Proof.
  revert w. induction cs as [ | c cs IH]; intros w; cbn [sent_all fold_left].
  - symmetry. apply app_nil_r.
  - fold (sent_all cs (sent c w)). rewrite IH. cbn [sent issued].
    rewrite <- app_assoc. reflexivity.
Qed.

Lemma faults_sent_all cs w :
  faults (sent_all cs w) = skipn (List.length cs) (faults w).
Proof.
  revert w. induction cs as [ | c cs IH]; intros w; cbn [sent_all fold_left].
  - reflexivity.
  - fold (sent_all cs (sent c w)). rewrite IH. cbn [sent faults List.length].
    destruct (faults w) as [ | f fs]; cbn [tl skipn]; [ | reflexivity].
    destruct (List.length cs); reflexivity.
Qed.

Lemma console_sent_all cs w : console (sent_all cs w) = console w.
Proof.
  revert w. induction cs as [ | c cs IH]; intros w; cbn [sent_all fold_left].
  - reflexivity.
  - fold (sent_all cs (sent c w)). rewrite IH. reflexivity.
Qed.

(** X10.  A run of either operation always ends in a response, never in an
    exception: 401 when the request carries no identity, 200 with the data
    when it does and no query fails, and 500 when it does and a query fails.
    The [success] field of the body is [true] exactly in the 200 case. *)
Theorem handler_outcomes req w :
  (exists resp w',
      getDashboardOverview req w = (inr resp, w')
      /\ resp
         = match outcome 13 req w with
           | Unauthorized =>
               mkResponse 401
                 (Failure "Unauthorized - User not authenticated" None)
           | Succeeded => mkResponse 200 (OverviewData (overview_report w))
           | Failed e =>
               mkResponse 500
                 (Failure "Failed to fetch dashboard data"
                          (Some (error_text e)))
           end
      /\ (success (body resp) = true <-> status resp = 200%nat))
  /\ (exists resp w',
         getQuickStats req w = (inr resp, w')
         /\ resp
            = match outcome 3 req w with
              | Unauthorized => mkResponse 401 (Failure "Unauthorized" None)
              | Succeeded => mkResponse 200 (QuickStatsData (quick_stats w))
              | Failed e => mkResponse 500 (Failure "Failed to fetch stats" None)
              end
         /\ (success (body resp) = true <-> status resp = 200%nat)).
Proof.
  unfold outcome. split.
  - destruct (no_identity req) eqn:Hid.
    + eexists _, _. split; [apply getDashboardOverview_unauthenticated, Hid | ].
      split; [reflexivity | cbn; split; discriminate].
    + destruct (first_fault 13 (faults w)) as [e | ] eqn:Hf.
      * eexists _, _. split; [apply getDashboardOverview_failed; eassumption | ].
        split; [reflexivity | cbn; split; discriminate].
      * eexists _, _. split; [apply getDashboardOverview_ok; assumption | ].
        split; [reflexivity | cbn; split; reflexivity].
  - destruct (no_identity req) eqn:Hid.
    + eexists _, _. split; [apply getQuickStats_unauthenticated, Hid | ].
      split; [reflexivity | cbn; split; discriminate].
    + destruct (first_fault 3 (faults w)) as [e | ] eqn:Hf.
      * eexists _, _. split; [apply getQuickStats_failed; eassumption | ].
        split; [reflexivity | cbn; split; discriminate].
      * eexists _, _. split; [apply getQuickStats_ok; assumption | ].
        split; [reflexivity | cbn; split; reflexivity].
Qed.

Lemma run_trace_of_run n (qs : list Collection) msg w :
  List.length qs = n ->
  run_trace n qs msg w
    match first_fault n (faults w) with
    | Some e => logged msg e (sent_all (firstn (queries_sent n (faults w)) qs) w)
    | None => sent_all qs w
    end.
Proof.
  intros Hn. unfold run_trace.
  destruct (first_fault n (faults w)) as [e | ] eqn:Hf.
  - cbn [logged issued faults console].
    rewrite issued_sent_all, faults_sent_all, console_sent_all, length_firstn.
    rewrite Hn, (Nat.min_l _ _ (queries_sent_le n (faults w))).
    repeat split.
  - rewrite issued_sent_all, faults_sent_all, console_sent_all.
    rewrite (queries_sent_fault_free n _ Hf), <- Hn, firstn_all, app_nil_r.
    repeat split.
Qed.

(** X11.  The queries of a run go out one after the other in a fixed
    order and stop at the first one that fails: the trace grows by the first
    queries of the handler's list, as many as succeed plus the failing one,
    none is sent twice, and the console gets one line exactly when a query
    failed. *)
Theorem handler_traces req w :
  authenticated req ->
  run_trace 13 overview_queries "Error fetching dashboard overview:" w
            (snd (getDashboardOverview req w))
  /\ run_trace 3 quick_stats_queries "Error fetching quick stats:" w
               (snd (getQuickStats req w)).
Proof.
  intros Hid. split.
  - pose proof (run_trace_of_run 13 overview_queries
                  "Error fetching dashboard overview:" w eq_refl) as T.
    destruct (first_fault 13 (faults w)) as [e | ] eqn:Hf.
    + rewrite (getDashboardOverview_failed req w e Hid Hf). exact T.
    + rewrite (getDashboardOverview_ok req w Hid Hf). exact T.
  - pose proof (run_trace_of_run 3 quick_stats_queries
                  "Error fetching quick stats:" w eq_refl) as T.
    destruct (first_fault 3 (faults w)) as [e | ] eqn:Hf.
    + rewrite (getQuickStats_failed req w e Hid Hf). exact T.
    + rewrite (getQuickStats_ok req w Hid Hf). exact T.
Qed.

Lemma handler_traces_witness :
  run_trace 13 overview_queries "Error fetching dashboard overview:"
            faulty_world
            (snd (getDashboardOverview sample_request faulty_world))
  /\ run_trace 3 quick_stats_queries "Error fetching quick stats:"
               faulty_world
               (snd (getQuickStats sample_request faulty_world)).
Proof.
  apply (handler_traces sample_request faulty_world). reflexivity.
Defined.

(* --------------------------------------------------------------------- *)
(** ** Bounds of the growth figures *)
(* --------------------------------------------------------------------- *)

Lemma Qfloor_half_le (q : Q) (z : Z) :
  (inject_Z z <= q)%Q -> z <= Qfloor (q + (1 # 2)).
Proof.
  intros H. rewrite <- (Qfloor_Z z). apply Qfloor_resp_le. lra.
Qed.

Lemma Qfloor_half_ge (q : Q) (z : Z) :
  (q <= inject_Z z)%Q -> Qfloor (q + (1 # 2)) <= z.
Proof.
  intros H.
  assert (Qfloor (q + (1 # 2)) < z + 1) as L; [ | lia].
  rewrite Zlt_Qlt, inject_Z_plus. change (inject_Z 1) with 1%Q.
  pose proof (Qfloor_le (q + (1 # 2))). lra.
Qed.

Lemma tenth_lower (q : Q) (lo : Z) :
  (inject_Z lo <= q * 10)%Q ->
  (inject_Z lo / 10 <= inject_Z (Qfloor (q * 10 + (1 # 2))) / 10)%Q.
Proof.
  intros Hlo. pose proof (Qfloor_half_le _ _ Hlo) as L. rewrite Zle_Qle in L.
  apply Qmult_le_compat_r; [assumption | discriminate].
Qed.

Lemma tenth_upper (q : Q) (hi : Z) :
  (q * 10 <= inject_Z hi)%Q ->
  (inject_Z (Qfloor (q * 10 + (1 # 2))) / 10 <= inject_Z hi / 10)%Q.
Proof.
  intros Hhi. pose proof (Qfloor_half_ge _ _ Hhi) as U. rewrite Zle_Qle in U.
  apply Qmult_le_compat_r; [assumption | discriminate].
Qed.

Lemma growth_ratio (current prior : nat) :
  (0 < prior)%nat ->
  let x := ((Q_of_nat current - Q_of_nat prior) / Q_of_nat prior * 100)%Q in
  (-100 <= x)%Q
  /\ ((current <= prior)%nat -> (x <= 0)%Q)
  /\ ((prior <= current)%nat -> (0 <= x)%Q)
  /\ (current = 0%nat -> (x == -100)%Q).
Proof.
  intros Hp x. subst x. unfold Q_of_nat.
  set (c := inject_Z (Z.of_nat current)). set (p := inject_Z (Z.of_nat prior)).
  assert (0 < p)%Q as Pp.
  { subst p. change 0%Q with (inject_Z 0). rewrite <- Zlt_Qlt. lia. }
  assert (0 <= c)%Q as Pc.
  { subst c. change 0%Q with (inject_Z 0). rewrite <- Zle_Qle. lia. }
  assert ((c - p) / p * 100 == c / p * 100 - 100)%Q as E.
  { field. lra. }
  assert (0 <= c / p)%Q as Pr.
  { apply Qle_shift_div_l; [exact Pp | lra]. }
  split; [rewrite E; lra | ]. split; [ | split].
  - intros Hle. assert (c <= p)%Q as Hq.
    { subst c p. rewrite <- Zle_Qle. lia. }
    assert (c / p <= 1)%Q by (apply Qle_shift_div_r; [exact Pp | lra]).
    rewrite E. lra.
  - intros Hle. assert (p <= c)%Q as Hq.
    { subst c p. rewrite <- Zle_Qle. lia. }
    assert (1 <= c / p)%Q by (apply Qle_shift_div_l; [exact Pp | lra]).
    rewrite E. lra.
  - intros ->. rewrite E. subst c. cbn [Z.of_nat].
    change (inject_Z 0) with 0%Q. field. lra.
Qed.

Lemma reported_growth_bounded (growth : nat -> nat -> number) :
  (forall c p,
      growth c p =
      if (0 <? p)%nat then Fin ((Q_of_nat c - Q_of_nat p) / Q_of_nat p * 100)
      else if (0 <? c)%nat then Fin 100 else Fin 0) ->
  forall this_month last_month,
  exists g, round_tenth (growth this_month last_month) = Fin g
            /\ growth_bounded this_month last_month g.
Proof.
  intros growth_eq c p. rewrite growth_eq. unfold growth_bounded.
  destruct (Nat.ltb_spec 0 p) as [Hp | Hp].
  - destruct (growth_ratio c p Hp) as (Hlo & Hneg & Hpos & Hzero).
    cbv zeta in *.
    set (x := ((Q_of_nat c - Q_of_nat p) / Q_of_nat p * 100)%Q) in *.
    exists (inject_Z (Qfloor (x * 10 + (1 # 2))) / 10)%Q.
    split; [apply round_tenth_Fin | ].
    assert (forall lo, (inject_Z lo <= x * 10)%Q ->
                       (inject_Z lo / 10
                        <= inject_Z (Qfloor (x * 10 + (1 # 2))) / 10)%Q) as Lo
      by (intros lo; apply tenth_lower).
    assert (forall hi, (x * 10 <= inject_Z hi)%Q ->
                       (inject_Z (Qfloor (x * 10 + (1 # 2))) / 10
                        <= inject_Z hi / 10)%Q) as Hi
      by (intros hi; apply tenth_upper).
    split; [ | split; [intros; lia | split; [ | split]]].
    + apply Qle_trans with (inject_Z (-1000) / 10)%Q;
        [vm_compute; discriminate | ].
      apply Lo. change (inject_Z (-1000)) with (-1000)%Q. lra.
    + intros _ Hle. specialize (Hneg Hle).
      apply Qle_trans with (inject_Z 0 / 10)%Q; [ | vm_compute; discriminate].
      apply Hi. change (inject_Z 0) with 0%Q. lra.
    + intros _ Hle. specialize (Hpos Hle).
      apply Qle_trans with (inject_Z 0 / 10)%Q; [vm_compute; discriminate | ].
      apply Lo. change (inject_Z 0) with 0%Q. lra.
    + intros _ Hc. specialize (Hzero Hc). apply Qle_antisym.
      * apply Qle_trans with (inject_Z (-1000) / 10)%Q;
          [ | vm_compute; discriminate].
        apply Hi. change (inject_Z (-1000)) with (-1000)%Q. lra.
      * apply Qle_trans with (inject_Z (-1000) / 10)%Q;
          [vm_compute; discriminate | ].
        apply Lo. change (inject_Z (-1000)) with (-1000)%Q. lra.
  - assert (p = 0%nat) as -> by lia.
    destruct (0 <? c)%nat; eexists; (split; [apply round_tenth_Fin | ]);
      (split; [vm_compute; discriminate | ]);
      (split; [intros _; (left; reflexivity) || (right; reflexivity) | ]);
      repeat split; intros; lia.
Qed.

(** X12.  Whatever the two counts, a reported growth figure is at least
    -100; it is 0 or 100 when nothing was counted last month, however many
    are counted this month; otherwise its sign follows the change of the
    count, rounding never turning a decrease into a positive figure or an
    increase into a negative one, and it is -100 exactly when the count fell
    to 0. *)
Theorem growth_bounds (this_month last_month : nat) :
  (exists g, round_tenth (studentGrowth this_month last_month) = Fin g
             /\ growth_bounded this_month last_month g)
  /\ (exists g, round_tenth (admissionGrowth this_month last_month) = Fin g
                /\ growth_bounded this_month last_month g).
Proof.
  split.
  - apply (reported_growth_bounded studentGrowth studentGrowth_eq).
  - apply (reported_growth_bounded admissionGrowth admissionGrowth_eq).
Qed.

(* --------------------------------------------------------------------- *)
(** ** Calendar months and time values *)
(* --------------------------------------------------------------------- *)

Module MonthFacts.
Import Date DateFacts.

(** Evaluate the successor of a month number written as a numeral. *)
Ltac month_succ :=
  repeat match goal with
    | |- context [0 + 1] => change (0 + 1) with 1
    | |- context [Z.pos ?p + 1] =>
        let v := eval vm_compute in (Z.pos p + 1) in
        change (Z.pos p + 1) with v
    | H : context [0 + 1] |- _ => change (0 + 1) with 1 in H
    | H : context [Z.pos ?p + 1] |- _ =>
        let v := eval vm_compute in (Z.pos p + 1) in
        change (Z.pos p + 1) with v in H
    end;
  cbn [monthStart] in *.

Lemma DayWithinYear_range t : 0 <= DayWithinYear t < DaysInYear (YearFromTime t).
Proof.
  unfold DayWithinYear, YearFromTime.
  pose proof (YearFromDay_spec (Day t)) as S.
  rewrite DayFromYear_succ in S. lia.
Qed.

Lemma InLeapYear_DaysInYear t : DaysInYear (YearFromTime t) = 365 + InLeapYear t.
Proof. unfold DaysInYear, InLeapYear. destruct (isLeapYear _); reflexivity. Qed.

Lemma InLeapYear_range t : 0 <= InLeapYear t <= 1.
Proof. unfold InLeapYear. destruct (isLeapYear _); lia. Qed.

Lemma MonthFromTime_range t : 0 <= MonthFromTime t <= 11.
Proof.
  unfold MonthFromTime. cbv zeta.
  repeat match goal with
    | |- context [?a <? ?b] => destruct (a <? b)
    end; lia.
Qed.

(** The day a time value falls on lies in the month [MonthFromTime] names. *)
Lemma MonthFromTime_spec t :
  monthStart (InLeapYear t) (MonthFromTime t) <= DayWithinYear t
  < monthStart (InLeapYear t) (MonthFromTime t + 1).
Proof.
  pose proof (DayWithinYear_range t) as R. rewrite InLeapYear_DaysInYear in R.
  pose proof (InLeapYear_range t) as L.
  unfold MonthFromTime. cbv zeta.
  repeat match goal with
    | |- context [?a <? ?b] => destruct (Z.ltb_spec a b)
    end; month_succ; lia.
Qed.

(** Conversely the month is determined by the day within the year. *)
Lemma MonthFromTime_unique t m :
  0 <= m <= 11 ->
  monthStart (InLeapYear t) m <= DayWithinYear t
  < monthStart (InLeapYear t) (m + 1) ->
  MonthFromTime t = m.
Proof.
  intros Hm H. pose proof (InLeapYear_range t) as L.
  assert (m = 0 \/ m = 1 \/ m = 2 \/ m = 3 \/ m = 4 \/ m = 5 \/ m = 6
          \/ m = 7 \/ m = 8 \/ m = 9 \/ m = 10 \/ m = 11) as C by lia.
  unfold MonthFromTime. cbv zeta.
  repeat (destruct C as [C | C]); subst m; month_succ;
    repeat match goal with
      | |- context [?a <? ?b] => destruct (Z.ltb_spec a b); try lia
      end.
Qed.

Lemma MakeDay_in_year y m :
  0 <= m <= 11 ->
  MakeDay y m 1 = DayFromYear y + monthStart (if isLeapYear y then 1 else 0) m.
Proof.
  intros Hm. unfold MakeDay.
  rewrite (Z.div_small m 12), (Z.mod_small m 12) by lia.
  rewrite Z.add_0_r. lia.
Qed.

Lemma MakeDay_next_year y : MakeDay y 12 1 = DayFromYear (y + 1).
Proof.
  unfold MakeDay. change (12 / 12) with 1. change (12 mod 12) with 0.
  cbn [monthStart]. lia.
Qed.

(** The first day of month [m + 1] of year [y], [m] in 0..11, December
    carrying into the next year. *)
Lemma MakeDay_succ_in_year y m :
  0 <= m <= 11 ->
  MakeDay y (m + 1) 1
  = DayFromYear y + monthStart (if isLeapYear y then 1 else 0) (m + 1).
Proof.
  intros Hm. destruct (Z.eq_dec m 11) as [-> | N].
  - change (11 + 1) with 12. rewrite MakeDay_next_year, DayFromYear_succ.
    unfold DaysInYear. cbn [monthStart]. destruct (isLeapYear y); lia.
  - apply MakeDay_in_year. lia.
Qed.

(** A day lies in month [m] of year [y] exactly when it lies between the
    first day of that month and the first day of the next one. *)
Lemma month_of_time t y m :
  0 <= m <= 11 ->
  (YearFromTime t = y /\ MonthFromTime t = m)
  <-> MakeDay y m 1 <= Day t < MakeDay y (m + 1) 1.
Proof.
  intros Hm. rewrite MakeDay_in_year, MakeDay_succ_in_year by exact Hm. split.
  - intros [<- <-]. pose proof (MonthFromTime_spec t) as S.
    unfold DayWithinYear, InLeapYear in S. lia.
  - intros H.
    assert (YearFromTime t = y) as Ey.
    { apply YearFromDay_unique. rewrite DayFromYear_succ.
      pose proof (monthStart_range (if isLeapYear y then 1 else 0) m) as R1.
      assert (monthStart (if isLeapYear y then 1 else 0) (m + 1)
              <= DaysInYear y) as R2.
      { unfold DaysInYear.
        assert (m = 0 \/ m = 1 \/ m = 2 \/ m = 3 \/ m = 4 \/ m = 5 \/ m = 6
                \/ m = 7 \/ m = 8 \/ m = 9 \/ m = 10 \/ m = 11) as C by lia.
        repeat (destruct C as [C | C]); subst m; month_succ;
          destruct (isLeapYear y); lia. }
      destruct (isLeapYear y); lia. }
    split; [exact Ey | ].
    apply MonthFromTime_unique; [exact Hm | ].
    unfold DayWithinYear, InLeapYear. rewrite Ey. lia.
Qed.

(** [MakeDay] normalises the month: the first day of month [m] of year [y]
    is that of month [m mod 12] of year [y + m / 12], and likewise for the
    month after. *)
Lemma MakeDay_normal y m :
  MakeDay y m 1 = MakeDay (y + m / 12) (m mod 12) 1.
Proof.
  unfold MakeDay. rewrite Z.mod_mod by lia.
  rewrite (Z.div_small (m mod 12) 12) by (apply Z.mod_pos_bound; lia).
  rewrite Z.add_0_r. reflexivity.
Qed.

Lemma MakeDay_succ_normal y m :
  MakeDay y (m + 1) 1 = MakeDay (y + m / 12) (m mod 12 + 1) 1.
Proof.
  pose proof (Z.mod_pos_bound m 12) as B.
  destruct (Z.eq_dec (m mod 12) 11) as [E | N].
  - rewrite E. change (11 + 1) with 12. rewrite MakeDay_next_year.
    unfold MakeDay.
    replace ((m + 1) / 12) with (m / 12 + 1)
      by (Z.to_euclidean_division_equations; lia).
    replace ((m + 1) mod 12) with 0 by (Z.to_euclidean_division_equations; lia).
    cbn [monthStart]. replace (y + (m / 12 + 1)) with (y + m / 12 + 1) by lia.
    lia.
  - rewrite (MakeDay_normal y (m + 1)).
    replace ((m + 1) / 12) with (m / 12)
      by (Z.to_euclidean_division_equations; lia).
    replace ((m + 1) mod 12) with (m mod 12 + 1)
      by (Z.to_euclidean_division_equations; lia).
    reflexivity.
Qed.

(** Months follow each other: later months start on later days. *)
Lemma MakeDay_month_lt y m : MakeDay y m 1 < MakeDay y (m + 1) 1.
Proof.
  rewrite MakeDay_normal, MakeDay_succ_normal.
  pose proof (Z.mod_pos_bound m 12) as B.
  rewrite MakeDay_in_year, MakeDay_succ_in_year by lia.
  set (leap := if isLeapYear _ then 1 else 0).
  assert (0 <= leap <= 1) as L by (subst leap; destruct (isLeapYear _); lia).
  assert (m mod 12 = 0 \/ m mod 12 = 1 \/ m mod 12 = 2 \/ m mod 12 = 3
          \/ m mod 12 = 4 \/ m mod 12 = 5 \/ m mod 12 = 6 \/ m mod 12 = 7
          \/ m mod 12 = 8 \/ m mod 12 = 9 \/ m mod 12 = 10 \/ m mod 12 = 11)
    as C by lia.
  repeat (destruct C as [C | C]); rewrite C; month_succ; lia.
Qed.

Lemma MakeDay_month_le y m (n : nat) :
  MakeDay y m 1 <= MakeDay y (m + Z.of_nat n) 1.
Proof.
  induction n as [ | n IH].
  - rewrite Z.add_0_r. lia.
  - replace (m + Z.of_nat (S n)) with (m + Z.of_nat n + 1) by lia.
    pose proof (MakeDay_month_lt y (m + Z.of_nat n)). lia.
Qed.

(** Whole days and time values. *)
Lemma Day_ge t d : d * msPerDay <= t <-> d <= Day t.
Proof.
  unfold Day, msPerDay. split; intros H.
  - apply Z.div_le_lower_bound; lia.
  - Z.to_euclidean_division_equations; lia.
Qed.

Lemma Day_lt t d : t < d * msPerDay <-> Day t < d.
Proof.
  unfold Day, msPerDay. split; intros H.
  - apply Z.div_lt_upper_bound; lia.
  - Z.to_euclidean_division_equations; lia.
Qed.

Lemma new_Date_value z year month date :
  100 <= year ->
  new_Date z year month date = MakeDay year month date * msPerDay - z.
Proof.
  intros Hy. unfold new_Date, UTC, MakeDate.
  replace ((0 <=? year) && (year <=? 99)) with false
    by (symmetry; apply andb_false_iff; lia).
  lia.
Qed.

End MonthFacts.

(* --------------------------------------------------------------------- *)
(** ** The windows of the month figures *)
(* --------------------------------------------------------------------- *)

Lemma clock_in_its_month z now :
  Date.MakeDay (Date.getFullYear z now) (Date.getMonth z now) 1
  <= Date.Day (now + z)
  < Date.MakeDay (Date.getFullYear z now) (Date.getMonth z now + 1) 1.
Proof.
  exact (proj1 (MonthFacts.month_of_time (now + z) (Date.getFullYear z now)
                  (Date.getMonth z now)
                  (MonthFacts.MonthFromTime_range (now + z)))
               (conj eq_refl eq_refl)).
Qed.

Lemma windows_are_ordered z now :
  100 <= Date.getFullYear z now -> windows_ordered z now.
Proof.
  intros Hy.
  unfold windows_ordered, startOfLastMonth, endOfLastMonth, startOfMonth,
    startOfNextMonth.
  rewrite !MonthFacts.new_Date_value by exact Hy.
  pose proof (clock_in_its_month z now) as [Lo Hi].
  apply MonthFacts.Day_ge in Lo. apply MonthFacts.Day_lt in Hi.
  revert Lo Hi.
  generalize (Date.getFullYear z now) as Y, (Date.getMonth z now) as Mo.
  intros Y Mo Lo Hi.
  pose proof (MonthFacts.MakeDay_month_lt Y (Mo - 1)) as Lt.
  replace (Mo - 1 + 1) with Mo in Lt by lia.
  assert (Date.MakeDay Y Mo 0 = Date.MakeDay Y Mo 1 - 1) as E
    by (unfold Date.MakeDay; lia).
  rewrite E. unfold Date.msPerDay in *. lia.
Qed.

Lemma windows_disjoint (lower upper start : Z) (a : Admission.t) :
  upper < start ->
  date_gte start a = true -> date_between lower upper a = false.
Proof.
  unfold date_gte, date_between. intros Hlt H.
  apply Z.leb_le in H. apply andb_false_iff. right. apply Z.leb_gt. lia.
Qed.

Lemma dated_at_or_after (start now : Z) (a : Admission.t) :
  start <= now -> Admission.admissionDate a = now -> date_gte start a = true.
Proof. unfold date_gte. intros Hle ->. apply Z.leb_le. exact Hle. Qed.

(** X13.  The date boundaries of a run are in order: the previous-month
    window is not empty, it ends before the current month starts, and the
    clock reading lies in the current month.  So no admission is counted both
    this month and last month, and an admission dated at the clock reading is
    counted this month. *)
Theorem month_windows (z now : Z) :
  100 <= Date.getFullYear z now ->
  windows_ordered z now
  /\ (forall a,
        date_gte (startOfMonth z now) a = true ->
        date_between (startOfLastMonth z now) (endOfLastMonth z now) a = false)
  /\ (forall a,
        Admission.admissionDate a = now ->
        date_gte (startOfMonth z now) a = true).
Proof.
  intros Hy. pose proof (windows_are_ordered z now Hy) as O.
  split; [exact O | ]. destruct O as (O1 & O2 & O3 & O4). split.
  - intros a. apply windows_disjoint. exact O2.
  - intros a. apply dated_at_or_after. exact O3.
Qed.

Lemma month_windows_witness :
  windows_ordered 21600000 1710482400000
  /\ (forall a,
        date_gte (startOfMonth 21600000 1710482400000) a = true ->
        date_between (startOfLastMonth 21600000 1710482400000)
                     (endOfLastMonth 21600000 1710482400000) a = false)
  /\ (forall a,
        Admission.admissionDate a = 1710482400000 ->
        date_gte (startOfMonth 21600000 1710482400000) a = true).
Proof.
  apply (month_windows 21600000 1710482400000). vm_compute. discriminate.
Defined.

(* --------------------------------------------------------------------- *)
(** ** The trend on a server in UTC *)
(* --------------------------------------------------------------------- *)

Lemma trend_key_month (y m : Z) (a : Admission.t) :
  0 <= m <= 11 ->
  YearMonth_eqb (Trend.mkYearMonth y (m + 1)) (trend_key a) = true
  <-> Date.MakeDay y m 1 * Date.msPerDay <= Admission.admissionDate a
      < Date.MakeDay y (m + 1) 1 * Date.msPerDay.
Proof.
  intros Hm. rewrite YearMonth_eqb_eq, MonthFacts.Day_ge, MonthFacts.Day_lt.
  rewrite <- (MonthFacts.month_of_time (Admission.admissionDate a) y m Hm).
  unfold trend_key. split.
  - intros [= E1 E2]. split; [symmetry; exact E1 | lia].
  - intros [<- <-]. reflexivity.
Qed.

Lemma utc_month_filter (Y Mo i : Z) (a : Admission.t) :
  0 <= i <= 5 ->
  (Date.MakeDay Y (Mo - 5) 1 * Date.msPerDay <=? Admission.admissionDate a)
  && YearMonth_eqb
       (Trend.mkYearMonth (Y + (Mo - i) / 12) ((Mo - i) mod 12 + 1))
       (trend_key a)
  = (Date.MakeDay Y (Mo - i) 1 * Date.msPerDay <=? Admission.admissionDate a)
    && (Admission.admissionDate a <? Date.MakeDay Y (Mo - i + 1) 1 * Date.msPerDay).
Proof.
  intros Hi.
  pose proof (Z.mod_pos_bound (Mo - i) 12) as B.
  pose proof (trend_key_month (Y + (Mo - i) / 12) ((Mo - i) mod 12) a) as K.
  rewrite <- MonthFacts.MakeDay_normal, <- MonthFacts.MakeDay_succ_normal in K.
  pose proof (MonthFacts.MakeDay_month_le Y (Mo - 5) (Z.to_nat (5 - i))) as Le.
  replace (Mo - 5 + Z.of_nat (Z.to_nat (5 - i))) with (Mo - i) in Le by lia.
  revert K Le.
  generalize (Date.MakeDay Y (Mo - 5) 1) as d5, (Date.MakeDay Y (Mo - i) 1) as d0,
    (Date.MakeDay Y (Mo - i + 1) 1) as d1.
  generalize (YearMonth_eqb
                (Trend.mkYearMonth (Y + (Mo - i) / 12) ((Mo - i) mod 12 + 1))
                (trend_key a)) as k.
  intros k d5 d0 d1 K Le. unfold Date.msPerDay in *.
  destruct k.
  - assert (d0 * 86400000 <= Admission.admissionDate a < d1 * 86400000) as R
      by (apply K; [lia | reflexivity]).
    rewrite andb_true_r.
    rewrite (proj2 (Z.leb_le _ _)) by lia.
    rewrite (proj2 (Z.leb_le _ _)) by lia.
    rewrite (proj2 (Z.ltb_lt _ _)) by lia. reflexivity.
  - rewrite andb_false_r. symmetry. apply andb_false_iff.
    destruct (Z.leb_spec (d0 * 86400000) (Admission.admissionDate a)) as [L | L];
      [ | left; reflexivity].
    right. apply Z.ltb_ge.
    destruct (Z.le_gt_cases (d1 * 86400000) (Admission.admissionDate a)) as [G | G];
      [exact G | ].
    assert (0 <= (Mo - i) mod 12 <= 11) as R by lia.
    pose proof (proj2 (K R) (conj L G)). discriminate.
Qed.

Lemma trend_entry_id z now raw i :
  100 <= Date.getFullYear z now ->
  Trend._id (trend_entry z now raw i)
  = Trend.mkYearMonth
      (Date.getFullYear z now + (Date.getMonth z now - i) / 12)
      ((Date.getMonth z now - i) mod 12 + 1).
Proof.
  intros Hy. unfold trend_entry. cbv zeta. cbn [Trend._id].
  destruct (DateFacts.new_Date_first z (Date.getFullYear z now)
              (Date.getMonth z now - i)) as [-> ->]; [lia | reflexivity].
Qed.

Lemma utc_entry_admissions w i :
  tza w = 0 -> 100 <= Date.getFullYear (tza w) (clock w) -> 0 <= i <= 5 ->
  admitted_in w
    (Trend._id (trend_entry (tza w) (clock w) (monthlyTrendsRaw w) i))
  = admissions_dated (month_start w (- i)) (month_start w (- i + 1)) w.
Proof.
  intros Ez Hy Hi. rewrite (trend_entry_id _ _ _ _ Hy).
  unfold admitted_in, admissions_dated, trend_start, month_start, date_gte.
  rewrite filter_filter.
  rewrite !MonthFacts.new_Date_value by exact Hy.
  rewrite Ez, !Z.sub_0_r.
  revert Hy. rewrite Ez.
  generalize (Date.getFullYear 0 (clock w)) as Y, (Date.getMonth 0 (clock w)) as Mo.
  intros Y Mo _.
  replace (Mo + - i) with (Mo - i) by lia.
  replace (Mo + (- i + 1)) with (Mo - i + 1) by lia.
  apply filter_ext. intros a. apply utc_month_filter. exact Hi.
Qed.

Lemma trend_positions k :
  (k < 6)%nat -> nth_error [5; 4; 3; 2; 1; 0] k = Some (5 - Z.of_nat k).
Proof.
  intros Hk. do 6 (destruct k as [ | k]; [reflexivity | ]). lia.
Qed.

Lemma utc_entry_figures w i :
  tza w = 0 -> 100 <= Date.getFullYear (tza w) (clock w) -> 0 <= i <= 5 ->
  figures_of (trend_entry (tza w) (clock w) (monthlyTrendsRaw w) i)
             (admissions_dated (month_start w (- i)) (month_start w (- i + 1)) w).
Proof.
  intros Ez Hy Hi. unfold figures_of.
  rewrite <- (utc_entry_admissions w i Ez Hy Hi).
  exact (trend_entry_figures w i).
Qed.

Lemma utc_trend_entry w k :
  tza w = 0 -> 100 <= Date.getFullYear (tza w) (clock w) -> (k < 6)%nat ->
  exists e,
    nth_error (fill_trends (tza w) (clock w) (monthlyTrendsRaw w)) k = Some e
    /\ figures_of e (admissions_dated (month_start w (Z.of_nat k - 5))
                                      (month_start w (Z.of_nat k - 4)) w).
Proof.
  intros Ez Hy Hk.
  exists (trend_entry (tza w) (clock w) (monthlyTrendsRaw w) (5 - Z.of_nat k)).
  split.
  - rewrite fill_trends_entries, nth_error_map, (trend_positions k Hk).
    reflexivity.
  - replace (Z.of_nat k - 5) with (- (5 - Z.of_nat k)) by lia.
    replace (Z.of_nat k - 4) with (- (5 - Z.of_nat k) + 1) by lia.
    apply utc_entry_figures; [exact Ez | exact Hy | lia].
Qed.



(* --------------------------------------------------------------------- *)
(** ** The trend against the monthly counts *)
(* --------------------------------------------------------------------- *)

Lemma filter_length_split {A} (p q r : A -> bool) (l : list A) :
  (forall a, p a = q a || r a) -> (forall a, q a && r a = false) ->
  List.length (filter p l)
  = (List.length (filter q l) + List.length (filter r l))%nat.
Proof.
  intros Hp Hqr. induction l as [ | a l IH]; [reflexivity | ].
  cbn [filter]. rewrite Hp. specialize (Hqr a).
  destruct (q a), (r a); cbn [orb andb] in *; try discriminate;
    cbn [List.length]; lia.
Qed.

Lemma dated_split (lo mid hi : Z) (a : Admission.t) :
  lo <= mid -> mid < hi ->
  (lo <=? Admission.admissionDate a) && (Admission.admissionDate a <? hi)
  = date_between lo mid a
    || (mid + 1 <=? Admission.admissionDate a) && (Admission.admissionDate a <? hi).
Proof.
  intros H1 H2. unfold date_between.
  destruct (Z.leb_spec lo (Admission.admissionDate a)),
           (Z.ltb_spec (Admission.admissionDate a) hi),
           (Z.leb_spec (Admission.admissionDate a) mid),
           (Z.leb_spec (mid + 1) (Admission.admissionDate a));
    cbn [andb orb]; try reflexivity; lia.
Qed.

Lemma dated_from_split (lo hi : Z) (a : Admission.t) :
  lo <= hi ->
  date_gte lo a
  = (lo <=? Admission.admissionDate a) && (Admission.admissionDate a <? hi)
    || date_gte hi a.
Proof.
  intros H1. unfold date_gte.
  destruct (Z.leb_spec lo (Admission.admissionDate a)),
           (Z.ltb_spec (Admission.admissionDate a) hi),
           (Z.leb_spec hi (Admission.admissionDate a));
    cbn [andb orb]; try reflexivity; lia.
Qed.

Lemma month_start_windows w :
  month_start w (-1) = startOfLastMonth (tza w) (clock w)
  /\ month_start w 0 = startOfMonth (tza w) (clock w)
  /\ month_start w 1 = startOfNextMonth (tza w) (clock w).
Proof.
  unfold month_start, startOfLastMonth, startOfMonth, startOfNextMonth.
  rewrite Z.add_0_r.
  replace (Date.getMonth (tza w) (clock w) + -1)
    with (Date.getMonth (tza w) (clock w) - 1) by lia.
  repeat split; reflexivity.
Qed.

Lemma previous_month_count w :
  100 <= Date.getFullYear (tza w) (clock w) ->
  List.length (admissions_dated (month_start w (-1)) (month_start w 0) w)
  = (newAdmissionsLastMonth w
     + List.length
         (admissions_dated (endOfLastMonth (tza w) (clock w) + 1)
                           (startOfMonth (tza w) (clock w)) w))%nat.
Proof.
  intros Hy. destruct (month_start_windows w) as (-> & -> & _).
  destruct (windows_are_ordered _ _ Hy) as (H1 & H2 & _).
  unfold newAdmissionsLastMonth, count_admissions, dollar_match, admissions_dated.
  revert H1 H2.
  generalize (startOfLastMonth (tza w) (clock w)) as lo,
             (endOfLastMonth (tza w) (clock w)) as mid,
             (startOfMonth (tza w) (clock w)) as hi.
  intros lo mid hi H1 H2. apply filter_length_split.
  - intros a. apply dated_split; assumption.
  - intros a. unfold date_between.
    destruct (Z.leb_spec (Admission.admissionDate a) mid),
             (Z.leb_spec (mid + 1) (Admission.admissionDate a));
      rewrite ?andb_false_r; cbn [andb]; try reflexivity; lia.
Qed.

Lemma current_month_count w :
  100 <= Date.getFullYear (tza w) (clock w) ->
  newAdmissionsThisMonth w
  = (List.length (admissions_dated (month_start w 0) (month_start w 1) w)
     + List.length (admissions_from (month_start w 1) w))%nat.
Proof.
  intros Hy. destruct (month_start_windows w) as (_ & -> & ->).
  destruct (windows_are_ordered _ _ Hy) as (_ & _ & H3 & H4).
  unfold newAdmissionsThisMonth, count_admissions, dollar_match,
    admissions_dated, admissions_from.
  assert (startOfMonth (tza w) (clock w) <= startOfNextMonth (tza w) (clock w))
    as H by lia. revert H. clear H3 H4.
  generalize (startOfMonth (tza w) (clock w)) as lo,
             (startOfNextMonth (tza w) (clock w)) as hi.
  intros lo hi H. apply filter_length_split.
  - intros a. apply dated_from_split; assumption.
  - intros a. unfold date_gte.
    destruct (Z.ltb_spec (Admission.admissionDate a) hi),
             (Z.leb_spec hi (Admission.admissionDate a));
      rewrite ?andb_false_r; cbn [andb]; try reflexivity; lia.
Qed.

(** X15.  On a server that runs in UTC, for a clock in year 100 or later, the
    report's figures agree as follows.  The new admissions of this month are
    those of the last entry of the trend series plus the admissions dated from
    the start of the next month on.  The entry before the last counts the
    admissions the admission growth takes for the previous month plus those
    dated after midnight of that month's last day. *)
Theorem trend_against_counts req w :
  authenticated req -> fault_free 13 w ->
  tza w = 0 -> 100 <= Date.getFullYear (tza w) (clock w) ->
  exists r w' previous current n m,
    getDashboardOverview req w = (inr (mkResponse 200 (OverviewData r)), w')
    /\ nth_error (Report.monthlyTrends r) 4 = Some previous
    /\ nth_error (Report.monthlyTrends r) 5 = Some current
    /\ Trend.count current = of_nat n
    /\ Report.newAdmissionsThisMonth (Report.overview r)
       = (n + List.length (admissions_from (month_start w 1) w))%nat
    /\ Trend.count previous = of_nat m
    /\ m = (newAdmissionsLastMonth w
            + List.length
                (admissions_dated (endOfLastMonth (tza w) (clock w) + 1)
                                  (startOfMonth (tza w) (clock w)) w))%nat.
Proof.
  intros Hid Hff Ez Hy.
  destruct (utc_trend_entry w 4 Ez Hy ltac:(lia)) as (previous & Np & Cp & _).
  destruct (utc_trend_entry w 5 Ez Hy ltac:(lia)) as (current & Nc & Cc & _).
  exists (overview_report w), (sent_all overview_queries w), previous, current.
  eexists; eexists.
  split; [apply getDashboardOverview_ok; assumption | ].
  unfold overview_report.
  cbn [Report.monthlyTrends Report.overview Report.newAdmissionsThisMonth].
  split; [exact Np | ]. split; [exact Nc | ].
  split; [exact Cc | ].
  split; [exact (current_month_count w Hy) | ].
  split; [exact Cp | ].
  exact (previous_month_count w Hy).
Qed.

Lemma trend_against_counts_witness :
  exists r w' previous current n m,
    getDashboardOverview sample_request sample_world
    = (inr (mkResponse 200 (OverviewData r)), w')
    /\ nth_error (Report.monthlyTrends r) 4 = Some previous
    /\ nth_error (Report.monthlyTrends r) 5 = Some current
    /\ Trend.count current = of_nat n
    /\ Report.newAdmissionsThisMonth (Report.overview r)
       = (n + List.length (admissions_from (month_start sample_world 1)
                                           sample_world))%nat
    /\ Trend.count previous = of_nat m
    /\ m = (newAdmissionsLastMonth sample_world
            + List.length
                (admissions_dated
                   (endOfLastMonth (tza sample_world) (clock sample_world) + 1)
                   (startOfMonth (tza sample_world) (clock sample_world))
                   sample_world))%nat.
Proof.
  apply (trend_against_counts sample_request sample_world);
    [reflexivity | reflexivity | reflexivity | vm_compute; discriminate].
Defined.

(* --------------------------------------------------------------------- *)
(** ** The email pattern *)
(* --------------------------------------------------------------------- *)

Module RegExpFacts.
Import RegExp.

Lemma nullable_matches r : nullable r = true <-> matches r [].
Proof.
  induction r; cbn [nullable]; split; intros H;
    try discriminate; try (now constructor).
  - inversion H.
  - inversion H.
  - inversion H.
  - apply andb_true_iff in H. destruct H as [H1 H2].
    change (@nil N) with (@nil N ++ []). constructor; tauto.
  - inversion H as [ | | | r' s' u v Hu Hv E1 E2 | | | | ].
    destruct u; [ | discriminate]. destruct v; [ | discriminate].
    apply andb_true_iff. tauto.
  - apply orb_true_iff in H.
    destruct H; [apply matches_Or_l | apply matches_Or_r]; tauto.
  - apply orb_true_iff. inversion H; subst; tauto.
Qed.

Lemma Star_cons_inv r c s :
  matches (Star r) (c :: s) ->
  exists u v, s = u ++ v /\ matches r (c :: u) /\ matches (Star r) v.
Proof.
  intros H. remember (Star r) as q eqn:Eq. remember (c :: s) as w eqn:Ew.
  revert Eq Ew.
  induction H as [ | | | | | | | r' u v Hu _ Hv IH]; try discriminate.
  intros [= ->] Ew. destruct u as [ | c' u].
  - apply IH; [reflexivity | exact Ew].
  - cbn in Ew. injection Ew as E1 E2. subst. exists u, v. tauto.
Qed.

Lemma after_matches r : forall c s, matches (after c r) s <-> matches r (c :: s).
Proof.
  induction r as [ | | d | | r IHr s' IHs | r IHr s' IHs | r IHr];
    intros c s; cbn [after].
  - split; intros H; inversion H.
  - split; intros H; inversion H.
  - destruct (N.eqb_spec c d) as [-> | Hne]; split; intros H.
    + inversion H. constructor.
    + inversion H. constructor.
    + inversion H.
    + inversion H; subst. congruence.
  - destruct (is_space c) eqn:Hc; split; intros H.
    + inversion H.
    + inversion H; subst. congruence.
    + inversion H. constructor. exact Hc.
    + inversion H. constructor.
  - assert (matches (Seq (after c r) s') s
            -> matches (Seq r s') (c :: s)) as Fwd.
    { intros H. inversion H as [ | | | r1 s1 u v Hu Hv E1 E2 | | | | ]; subst.
      change (c :: u ++ v) with ((c :: u) ++ v).
      constructor; [apply IHr; exact Hu | exact Hv]. }
    assert (forall u v, c :: s = u ++ v -> matches r u -> matches s' v ->
              (exists u', u = c :: u' /\ s = u' ++ v)
              \/ (u = [] /\ v = c :: s)) as Split.
    { intros u v E _ _. destruct u as [ | c' u].
      - right. cbn in E. auto.
      - left. cbn in E. injection E as -> ->. eauto. }
    destruct (nullable r) eqn:Hn; split; intros H.
    + inversion H as [ | | | | r1 s1 u Hu | r1 s1 u Hu | | ]; subst.
      * apply Fwd. exact Hu.
      * change (c :: s) with ([] ++ c :: s). constructor.
        -- apply nullable_matches. exact Hn.
        -- apply IHs. exact Hu.
    + inversion H as [ | | | r1 s1 u v Hu Hv E1 E2 | | | | ]; subst.
      destruct (Split u v (eq_sym E2) Hu Hv) as [(u' & -> & ->) | [-> ->]].
      * apply matches_Or_l. constructor; [apply IHr; exact Hu | exact Hv].
      * apply matches_Or_r. apply IHs. exact Hv.
    + apply Fwd. exact H.
    + inversion H as [ | | | r1 s1 u v Hu Hv E1 E2 | | | | ]; subst.
      destruct (Split u v (eq_sym E2) Hu Hv) as [(u' & -> & ->) | [-> ->]].
      * constructor; [apply IHr; exact Hu | exact Hv].
      * apply nullable_matches in Hu. congruence.
  - split; intros H.
    + inversion H; subst;
        [apply matches_Or_l; apply IHr | apply matches_Or_r; apply IHs];
        assumption.
    + inversion H; subst;
        [apply matches_Or_l; apply IHr | apply matches_Or_r; apply IHs];
        assumption.
  - split; intros H.
    + inversion H as [ | | | r1 s1 u v Hu Hv E1 E2 | | | | ]; subst.
      change (c :: u ++ v) with ((c :: u) ++ v).
      constructor; [apply IHr; exact Hu | exact Hv].
    + apply Star_cons_inv in H. destruct H as (u & v & -> & Hu & Hv).
      constructor; [apply IHr; exact Hu | exact Hv].
Qed.

Lemma test_matches s : forall r, test r s = true <-> matches r s.
Proof.
  unfold test. induction s as [ | c s IH]; intros r; cbn [fold_left].
  - apply nullable_matches.
  - rewrite IH. apply after_matches.
Qed.

Lemma Star_NonSpace s : matches (Star NonSpace) s <-> no_space s.
Proof.
  split.
  - intros H. remember (Star NonSpace) as q eqn:Eq. revert Eq.
    induction H as [ | | | | | | | r u v Hu _ Hv IH]; try discriminate.
    + intros _. constructor.
    + intros [= ->]. inversion Hu; subst.
      constructor; [assumption | apply IH; reflexivity].
  - induction 1 as [ | c s Hc _ IH].
    + constructor.
    + change (c :: s) with ([c] ++ s).
      constructor; [constructor; exact Hc | exact IH].
Qed.

Lemma Plus_NonSpace s :
  matches (Plus NonSpace) s <-> s <> [] /\ no_space s.
Proof.
  unfold Plus. split.
  - intros H. inversion H as [ | | | r1 s1 u v Hu Hv E1 E2 | | | | ]; subst.
    inversion Hu; subst. apply Star_NonSpace in Hv.
    split; [discriminate | constructor; assumption].
  - intros [Hne H]. destruct s as [ | c s]; [congruence | ].
    inversion H; subst. change (c :: s) with ([c] ++ s).
    constructor; [constructor; assumption | apply Star_NonSpace; assumption].
Qed.

End RegExpFacts.

(** X16.  The pattern of the [email] path accepts exactly the strings of the
    shape [local@domain.tail] whose three parts are non-empty and that hold
    no white space. *)
Theorem email_pattern (s : list N) :
  RegExp.test emailPattern s = true <-> address_shape s.
Proof.
  rewrite RegExpFacts.test_matches. unfold emailPattern, address_shape.
  split.
  - intros H.
    inversion H as [ | | | r1 s1 l v1 Hl H1 E1 E2 | | | | ]; subst; clear H.
    inversion H1 as [ | | | r1 s1 a v2 Ha H2 E1 E2 | | | | ]; subst; clear H1.
    inversion H2 as [ | | | r1 s1 d v3 Hd H3 E1 E2 | | | | ]; subst; clear H2.
    inversion H3 as [ | | | r1 s1 p t Hp Ht E1 E2 | | | | ]; subst; clear H3.
    inversion Ha; subst. inversion Hp; subst.
    apply RegExpFacts.Plus_NonSpace in Hl, Hd, Ht.
    destruct Hl as [Nl Sl], Hd as [Nd Sd], Ht as [Nt St].
    exists l, d, t. cbn [app]. repeat split; try assumption.
    unfold RegExp.no_space in *.
    apply Forall_app. split; [exact Sl | ].
    constructor; [reflexivity | ].
    apply Forall_app. split; [exact Sd | ].
    constructor; [reflexivity | exact St].
  - intros (l & d & t & -> & Nl & Nd & Nt & Hs). unfold RegExp.no_space in Hs.
    apply Forall_app in Hs. destruct Hs as [Sl Hs].
    inversion Hs as [ | ? ? _ Hs']; subst.
    apply Forall_app in Hs'. destruct Hs' as [Sd Hs'].
    inversion Hs' as [ | ? ? _ St]; subst.
    constructor; [apply RegExpFacts.Plus_NonSpace; split; assumption | ].
    change (64%N :: d ++ 46%N :: t) with ([64%N] ++ d ++ [46%N] ++ t).
    constructor; [constructor | ].
    constructor; [apply RegExpFacts.Plus_NonSpace; split; assumption | ].
    constructor; [constructor | ].
    apply RegExpFacts.Plus_NonSpace; split; assumption.
Qed.

(* --------------------------------------------------------------------- *)
(** ** The password of a user *)
(* --------------------------------------------------------------------- *)

Section PasswordFacts.

Variable Salt : Type.
Variable bcrypt_hash : string -> Salt -> string.
Variable bcrypt_compare : string -> string -> bool.

Lemma pre_save_unmodified salt u : pre_save bcrypt_hash false salt u = u.
Proof. reflexivity. Qed.

Lemma later_saves_id salts u : later_saves bcrypt_hash salts u = u.
Proof.
  unfold later_saves. revert u.
  induction salts as [ | salt salts IH]; intros u; [reflexivity | ].
  cbn [fold_left]. rewrite pre_save_unmodified. apply IH.
Qed.

Lemma pre_save_no_password flag salt u :
  no_password u = true -> pre_save bcrypt_hash flag salt u = u.
Proof.
  intros H. unfold pre_save. rewrite H, orb_true_r. reflexivity.
Qed.

Lemma saves_no_password l u :
  no_password u = true -> saves bcrypt_hash l u = u.
Proof.
  intros H. unfold saves.
  induction l as [ | [flag salt] l IH]; [reflexivity | ].
  cbn [fold_left fst snd]. rewrite pre_save_no_password by exact H. exact IH.
Qed.

Lemma no_password_false u p :
  User.password u = Some p -> p <> "" -> no_password u = false.
Proof.
  intros E Hp. unfold no_password. rewrite E.
  apply String.eqb_neq. exact Hp.
Qed.

Lemma pre_save_hashes salt u p :
  User.password u = Some p -> p <> "" ->
  pre_save bcrypt_hash true salt u = set_password u (bcrypt_hash p salt).
Proof.
  intros E Hp. unfold pre_save.
  rewrite (no_password_false u p E Hp), E. reflexivity.
Qed.

End PasswordFacts.

(** X17.  A user saved with a new, non-empty password verifies that password
    afterwards, and keeps verifying it through later saves that leave the
    password untouched, whenever [bcrypt] never hashes to the empty string and
    compares a password equal to its hashes. *)
Theorem saved_password_verifies (Salt : Type)
  (bcrypt_hash : string -> Salt -> string)
  (bcrypt_compare : string -> string -> bool)
  (u : User.t) (p : string) (salt : Salt) (salts : list Salt) :
  bcrypt_contract bcrypt_hash bcrypt_compare ->
  User.password u = Some p -> p <> "" ->
  comparePassword bcrypt_compare
    (later_saves bcrypt_hash salts (pre_save bcrypt_hash true salt u)) p
  = true.
Proof.
  intros [Hne Hok] E Hp.
  rewrite later_saves_id, (pre_save_hashes _ _ salt u p E Hp).
  unfold comparePassword.
  rewrite (no_password_false (set_password u (bcrypt_hash p salt))
             (bcrypt_hash p salt) eq_refl (Hne p salt)).
  cbn [set_password User.password]. apply Hok.
Qed.

Lemma saved_password_verifies_witness :
  comparePassword marked_compare
    (later_saves marked_hash ["b"%char; "c"%char]
       (pre_save marked_hash true "a"%char sample_account)) "secret1"
  = true.
Proof.
  apply (saved_password_verifies ascii marked_hash marked_compare
           sample_account "secret1" "a"%char ["b"%char; "c"%char]).
  - split; intros p salt; [discriminate | apply String.eqb_refl].
  - reflexivity.
  - discriminate.
Defined.

(** X18.  A user without a password, or with the empty one, is left as it is
    by every sequence of saves and verifies no candidate password, whatever
    [bcrypt] computes. *)
Theorem passwordless_never_verifies (Salt : Type)
  (bcrypt_hash : string -> Salt -> string)
  (bcrypt_compare : string -> string -> bool)
  (u : User.t) (l : list (bool * Salt)) (candidate : string) :
  no_password u = true ->
  saves bcrypt_hash l u = u
  /\ comparePassword bcrypt_compare (saves bcrypt_hash l u) candidate = false.
Proof.
  intros H. rewrite (saves_no_password _ bcrypt_hash l u H).
  split; [reflexivity | ]. unfold comparePassword. rewrite H. reflexivity.
Qed.

Lemma passwordless_never_verifies_witness :
  saves marked_hash [(true, "a"%char); (false, "b"%char)]
        (sample_user User.admin None)
  = sample_user User.admin None
  /\ comparePassword marked_compare
       (saves marked_hash [(true, "a"%char); (false, "b"%char)]
              (sample_user User.admin None)) "secret1"
     = false.
Proof.
  apply (passwordless_never_verifies ascii marked_hash marked_compare
           (sample_user User.admin None)
           [(true, "a"%char); (false, "b"%char)] "secret1").
  reflexivity.
Defined.
